(** * jinbeniyama/website: the bibliography and presentation converters

    A shallow embedding of [script/bibtex2html.py] and
    [script/presentation_html.py], and the properties their specification
    states about them.

    A Python [str] is a sequence of Unicode code points: a [list N].  A [dict]
    read only through [get] is a [gmap]; a [dict] that is iterated keeps its
    insertion order as an association list.  Python's [int] is [Z]. *)

From Stdlib Require Import ZArith NArith List Ascii String Lia.
From Stdlib Require Import DecimalPos Sorted.
From stdpp Require Import gmap list.

Local Open Scope N_scope.

(** ** Python's built-ins, as far as the two scripts use them *)

Module Py.

(** An ASCII literal of the source, as a [str]. *)
Definition lit (x : string) : list N :=
  List.map N_of_ascii (list_ascii_of_string x).
Arguments lit x%_string.

(** The double quote, which a literal of this file cannot hold. *)
Definition dq : list N := [34].

(** The truth value of a [str] or a [list]: it is not empty. *)
Definition nonempty {A} (l : list A) : bool :=
  match l with [] => false | _ :: _ => true end.

(** [str.isspace] of one character (CPython's [_PyUnicode_IsWhitespace]). *)
Definition is_space (c : N) : bool :=
  ((9 <=? c) && (c <=? 13)) || ((28 <=? c) && (c <=? 32))
  || (c =? 133) || (c =? 160) || (c =? 5760)
  || ((8192 <=? c) && (c <=? 8202))
  || (c =? 8232) || (c =? 8233) || (c =? 8239) || (c =? 8287) || (c =? 12288).

Fixpoint drop_while (p : N -> bool) (l : list N) : list N :=
  match l with
  | [] => []
  | c :: l' => if p c then drop_while p l' else l
  end.

Fixpoint take_while (p : N -> bool) (l : list N) : list N :=
  match l with
  | [] => []
  | c :: l' => if p c then c :: take_while p l' else []
  end.

Definition lstrip (x : list N) : list N := drop_while is_space x.
Definition rstrip (x : list N) : list N := rev (drop_while is_space (rev x)).

(** [x.strip()] *)
Definition strip (x : list N) : list N := rstrip (lstrip x).

(** [sep.join(parts)] *)
Fixpoint join (sep : list N) (parts : list (list N)) : list N :=
  match parts with
  | [] => []
  | [p] => p
  | p :: rest => p ++ sep ++ join sep rest
  end.

(** [x == y] *)
Fixpoint str_eqb (x y : list N) : bool :=
  match x, y with
  | [], [] => true
  | a :: x', b :: y' => (a =? b) && str_eqb x' y'
  | _, _ => false
  end.

(** [x.startswith(p)] *)
Fixpoint startswith (p x : list N) : bool :=
  match p, x with
  | [], _ => true
  | a :: p', b :: x' => (a =? b) && startswith p' x'
  | _ :: _, [] => false
  end.

(** [needle in x] *)
Fixpoint contains (needle x : list N) : bool :=
  startswith needle x ||
  match x with
  | [] => false
  | _ :: x' => contains needle x'
  end.

(** [x.replace(old, new)]: the occurrences of [old] are replaced from left to
    right, without overlap.  [skip] counts the characters of an occurrence
    already replaced that are still to be passed over. *)
Fixpoint replace_from (old new : list N) (skip : nat) (x : list N) : list N :=
  match x with
  | [] => []
  | c :: x' =>
      match skip with
      | S k => replace_from old new k x'
      | O =>
          if startswith old x
          then new ++ replace_from old new (Nat.pred (length old)) x'
          else c :: replace_from old new O x'
      end
  end.

Definition replace (old new x : list N) : list N :=
  match old with
  | [] => new ++ flat_map (fun c => c :: new) x
  | _ :: _ => replace_from old new O x
  end.

(** [x.split(sep, 1)] for a one-character [sep] that occurs in [x]: the text
    before the first [sep] and the text after it. *)
Definition split_once (sep : N) (x : list N) : list N * list N :=
  let before := take_while (fun c => negb (c =? sep)) x in
  (before, drop (S (length before)) x).

(** [sep in x] for a one-character [sep]. *)
Definition has_char (sep : N) (x : list N) : bool := existsb (N.eqb sep) x.

(** *** [for line in f] over a text file

    The lines a text file yields when it is iterated: every line end
    (a line feed, a carriage return, or the two in this order) is read as one
    line feed and closes a line; text after the last line end is a line.
    [cur] is the line so far; [after_cr] says that the character before was a
    carriage return. *)
Fixpoint lines_from (cur : list N) (after_cr : bool) (x : list N)
  : list (list N) :=
  match x with
  | [] => if nonempty cur then [cur] else []
  | c :: x' =>
      if c =? 10 then
        if after_cr then lines_from [] false x'
        else (cur ++ [10]) :: lines_from [] false x'
      else if c =? 13 then (cur ++ [10]) :: lines_from [] true x'
      else lines_from (cur ++ [c]) false x'
  end.

Definition file_lines (text : list N) : list (list N) :=
  lines_from [] false text.

(** *** [int(x)] of a [str]

    CPython first maps the text to ASCII
    ([_PyUnicode_TransformDecimalAndSpaceToASCII]): a character below 127
    stays, another whitespace character becomes a space, another decimal
    digit becomes its ASCII digit, and anything else becomes [?], which no
    number contains. *)

(** The first code point of each run of ten decimal digits (general category
    Nd) of the Unicode database of CPython 3.11. *)
Definition decimal_runs : list N :=
  [48; 1632; 1776; 1984; 2406; 2534; 2662; 2790; 2918; 3046; 3174; 3302;
   3430; 3558; 3664; 3792; 3872; 4160; 4240; 6112; 6160; 6470; 6608; 6784;
   6800; 6992; 7088; 7232; 7248; 42528; 43216; 43264; 43472; 43504; 43600;
   44016; 65296; 66720; 68912; 69734; 69872; 69942; 70096; 70384; 70736;
   70864; 71248; 71360; 71472; 71904; 72016; 72784; 73040; 73120; 92768;
   92864; 93008; 120782; 120792; 120802; 120812; 120822; 123200; 123632;
   125264; 130032].

(** [Py_UNICODE_TODECIMAL] *)
Definition decimal_digit (c : N) : option N :=
  match List.find (fun r => (r <=? c) && (c <? r + 10)) decimal_runs with
  | Some r => Some (c - r)
  | None => None
  end.

Definition to_ascii (c : N) : N :=
  if c <? 127 then c
  else if is_space c then 32
  else match decimal_digit c with
       | Some d => 48 + d
       | None => 63
       end.

(** [Py_ISSPACE] *)
Definition ascii_space (c : N) : bool :=
  (c =? 32) || ((9 <=? c) && (c <=? 13)).

Definition ascii_digit (c : N) : bool := (48 <=? c) && (c <=? 57).

(** The digit loop of [PyLong_FromString] in base ten: digits, with single
    underscores between them.  [prev] is the character before, [acc] the value
    so far and [n] the number of digits read.  The result is the value, the
    number of digits and the text left. *)
Fixpoint scan_digits (x : list N) (prev : N) (acc : N) (n : nat)
  : option (N * nat * list N) :=
  match x with
  | [] => if prev =? 95 then None else Some (acc, n, [])
  | c :: x' =>
      if c =? 95 then
        if prev =? 95 then None else scan_digits x' c acc n
      else if ascii_digit c then
        scan_digits x' c (10 * acc + (c - 48)) (S n)
      else if prev =? 95 then None else Some (acc, n, x)
  end.

(** [sys.int_info.default_max_str_digits] *)
Definition max_str_digits : nat := 4300.

(** [PyLong_FromString] in base ten; [None] is [ValueError]. *)
Definition int_of_ascii (x : list N) : option Z :=
  let x1 := drop_while ascii_space x in
  let '(neg, x2) :=
    match x1 with
    | 43 :: r => (false, r)
    | 45 :: r => (true, r)
    | _ => (false, x1)
    end in
  match x2 with
  | 95 :: _ => None
  | _ =>
      match scan_digits x2 0 0 O with
      | None => None
      | Some (v, n, rest) =>
          if (n =? 0)%nat then None
          else if (max_str_digits <? n)%nat then None
          else match drop_while ascii_space rest with
               | [] => Some (if neg then (- Z.of_N v)%Z else Z.of_N v)
               | _ :: _ => None
               end
      end
  end.

(** [int(x)]; [None] is [ValueError]. *)
Definition int (x : list N) : option Z := int_of_ascii (List.map to_ascii x).

(** *** [str(n)] of an [int] *)

Fixpoint uint_chars (d : Decimal.uint) : list N :=
  match d with
  | Decimal.Nil => []
  | Decimal.D0 d => 48 :: uint_chars d
  | Decimal.D1 d => 49 :: uint_chars d
  | Decimal.D2 d => 50 :: uint_chars d
  | Decimal.D3 d => 51 :: uint_chars d
  | Decimal.D4 d => 52 :: uint_chars d
  | Decimal.D5 d => 53 :: uint_chars d
  | Decimal.D6 d => 54 :: uint_chars d
  | Decimal.D7 d => 55 :: uint_chars d
  | Decimal.D8 d => 56 :: uint_chars d
  | Decimal.D9 d => 57 :: uint_chars d
  end.

Definition str_of_int (z : Z) : list N :=
  match Z.to_int z with
  | Decimal.Pos d => uint_chars d
  | Decimal.Neg d => 45 :: uint_chars d
  end.

(** *** [template.format(name=value, ...)]

    The values the scripts interpolate: a [str], or [None]. *)
Inductive value :=
  | VStr (x : list N)
  | VNone.

(** [str(v)], which [format] applies to a field with no format specification. *)
Definition str_of_value (v : value) : list N :=
  match v with
  | VStr x => x
  | VNone => lit "None"
  end.

Fixpoint kw_get (kw : list (list N * value)) (name : list N) : option value :=
  match kw with
  | [] => None
  | (k, v) :: kw' => if str_eqb k name then Some v else kw_get kw' name
  end.

(** Where the scan of a template stands: in literal text, after a [{], inside
    the name of a field, or after a [}]. *)
Inductive fstate :=
  | FText
  | FOpen
  | FField (name : list N)
  | FClose.

(** Replacement fields are plain keyword names, as in the two templates: a
    doubled brace is a literal brace, [{name}] is the keyword's value, and
    anything else ([None]) is an exception. *)
Fixpoint format_from (kw : list (list N * value)) (st : fstate) (x : list N)
  : option (list N) :=
  match x with
  | [] => match st with FText => Some [] | _ => None end
  | c :: x' =>
      match st with
      | FText =>
          if c =? 123 then format_from kw FOpen x'
          else if c =? 125 then format_from kw FClose x'
          else option_map (cons c) (format_from kw FText x')
      | FOpen =>
          if c =? 123 then option_map (cons 123) (format_from kw FText x')
          else if c =? 125 then None
          else format_from kw (FField [c]) x'
      | FField name =>
          if c =? 125 then
            match kw_get kw name with
            | Some v =>
                option_map (app (str_of_value v)) (format_from kw FText x')
            | None => None
            end
          else if c =? 123 then None
          else format_from kw (FField (name ++ [c])) x'
      | FClose =>
          if c =? 125 then option_map (cons 125) (format_from kw FText x')
          else None
      end
  end.

Definition format (template : list N) (kw : list (list N * value))
  : option (list N) :=
  format_from kw FText template.

End Py.

(** ** [script/bibtex2html.py] *)

Module Bib.

Import Py.

(** A [dict] display: the items are stored from left to right, so a key
    written twice keeps its last value. *)
Definition dict_of_items (items : list (list N * list N))
  : gmap (list N) (list N) :=
  fold_left (fun m kv => <[kv.1 := kv.2]> m) items ∅.

(** [d.get(k, dflt)] *)
Definition get {V} (d : gmap (list N) V) (k : list N) (dflt : V) : V :=
  default dflt (d !! k).

Definition JOURNAL_MAP_items : list (list N * list N) :=
  [(lit "\pasj", lit "Publications of the Astronomical Society of Japan");
   (lit "\nat", lit "Nature");
   (lit "\icarus", lit "Icarus");
   (lit "\aj", lit "Astronomical Journal");
   (lit "\apj", lit "Astrophysical Journal");
   (lit "\apjl", lit "ApJL");
   (lit "\apjs", lit "ApJS");
   (lit "\pasp", lit "PASP");
   (lit "\mnras", lit "MNRAS");
   (lit "\aap", lit "A&A");
   (lit "\grl", lit "GRL");
   (lit "\psj", lit "PSJ");
   (lit "\araa", lit "ARAA");
   (lit "\gca", lit "GCA");
   (lit "\aap", lit "Astronomy & Astrophysics")].

Definition JOURNAL_MAP : gmap (list N) (list N) :=
  dict_of_items JOURNAL_MAP_items.

(** The accent table is iterated, so it keeps its order.  Its keys are raw
    strings: a backslash, the accent mark and the letter. *)
Definition LATEX_ACCENTS : list (list N * list N) :=
  [(92 :: dq ++ lit "a", [228]); (92 :: dq ++ lit "o", [246]);
   (92 :: dq ++ lit "u", [252]);
   (92 :: dq ++ lit "A", [196]); (92 :: dq ++ lit "O", [214]);
   (92 :: dq ++ lit "U", [220]);
   (lit "\'a", [225]); (lit "\'e", [233]); (lit "\'i", [237]);
   (lit "\'o", [243]); (lit "\'u", [250]);
   (lit "\`a", [224]); (lit "\`e", [232]); (lit "\`i", [236]);
   (lit "\`o", [242]); (lit "\`u", [249]);
   (lit "\~n", [241]); (lit "\ss", [223]);
   (lit "\^a", [226]); (lit "\^e", [234]); (lit "\^i", [238]);
   (lit "\^o", [244]); (lit "\^u", [251])].

Definition latex_to_unicode (text : list N) : list N :=
  let text :=
    fold_left (fun text kv => replace kv.1 kv.2 text) LATEX_ACCENTS text in
  replace (lit "}") [] (replace (lit "{") [] text).

Definition normalize_journal (journal : list N) : list N :=
  let journal := strip journal in
  get JOURNAL_MAP journal journal.

(** An entry as the bibliography parser delivers it: [fields] by lower-case
    name, and under each role of [persons] the [str()] of each person. *)
Record Entry := {
  fields : gmap (list N) (list N);
  persons : gmap (list N) (list (list N))
}.

(** The sort key of an entry: its year, or 9999. *)
Definition year_int (entry : Entry) : Z :=
  let year_str := get (fields entry) (lit "year") (lit "9999") in
  match int year_str with
  | Some y => y
  | None => 9999%Z
  end.

(** [l.sort(key=key)] is a stable sort: [x], which stood before every element
    of [l], goes before the first element whose key is not smaller. *)
Fixpoint insert_by {A} (key : A -> Z) (x : A) (l : list A) : list A :=
  match l with
  | [] => [x]
  | y :: l' =>
      if (key x <=? key y)%Z then x :: l else y :: insert_by key x l'
  end.

Definition sort_by {A} (key : A -> Z) (l : list A) : list A :=
  foldr (insert_by key) [] l.

(** The pooled entries with their keys, in sorted order. *)
Definition all_entries (pooled : list Entry) : list (Z * Entry) :=
  sort_by fst (List.map (fun entry => (year_int entry, entry)) pooled).

Definition authors_list (entry : Entry) : list (list N) :=
  List.map latex_to_unicode (get (persons entry) (lit "author") []).

Definition bold (name : list N) : list N := lit "<b>" ++ name ++ lit "</b>".

Definition joined_or_unknown (authors : list (list N)) : list N :=
  if nonempty authors then join (lit ", ") authors else lit "Unknown".

(** The authors cell. *)
Definition authors_html (first_author_table : bool) (authors : list (list N))
  : list N :=
  if first_author_table && nonempty authors then
    let authors := <[0%nat := bold (List.hd [] authors)]> authors in
    if (3 <? length authors)%nat
    then join (lit ", ") (take 3 authors) ++ lit ", et al."
    else joined_or_unknown authors
  else joined_or_unknown authors.

Definition title_of (entry : Entry) : list N :=
  latex_to_unicode (get (fields entry) (lit "title") (lit "No title")).

(** The target of the title's link. *)
Definition url_of (entry : Entry) : list N :=
  let doi := get (fields entry) (lit "doi") [] in
  if nonempty doi then lit "https://doi.org/" ++ doi
  else get (fields entry) (lit "url") (lit "#").

Definition title_html (entry : Entry) : list N :=
  lit "<a href=" ++ dq ++ url_of entry ++ dq ++ lit " target=" ++ dq
  ++ lit "_blank" ++ dq ++ lit ">" ++ title_of entry ++ lit "</a>".

(** The journal cell. *)
Definition journal_info (year : Z) (entry : Entry) : list N :=
  let raw_journal := get (fields entry) (lit "journal") [] in
  let journal := normalize_journal raw_journal in
  let volume := get (fields entry) (lit "volume") [] in
  let pages := get (fields entry) (lit "pages") [] in
  join (lit ", ")
    (List.filter nonempty [journal; volume; pages; str_of_int year]).

Definition nl : list N := [10].

(** Lines of text, joined by line feeds. *)
Definition join_lines (lines : list (list N)) : list N := join nl lines.

Definition row_html (first_author_table : bool) (i : Z) (year : Z)
  (entry : Entry) : list N :=
  lit "        <tr>" ++ nl
  ++ lit "          <td>" ++ str_of_int i ++ lit "</td>" ++ nl
  ++ lit "          <td class='authors'>"
  ++ authors_html first_author_table (authors_list entry) ++ lit "</td>" ++ nl
  ++ lit "          <td>" ++ title_html entry ++ lit "</td>" ++ nl
  ++ lit "          <td>" ++ journal_info year entry ++ lit "</td>" ++ nl
  ++ lit "        </tr>".

(** The loop over [enumerate(all_entries, start=i)]. *)
Fixpoint rows_from (first_author_table : bool) (i : Z) (l : list (Z * Entry))
  : list (list N) :=
  match l with
  | [] => []
  | (year, entry) :: l' =>
      row_html first_author_table i year entry
      :: rows_from first_author_table (i + 1) l'
  end.

(** The rows of the entries pooled from all files. *)
Definition rows_of (first_author_table : bool) (pooled : list Entry)
  : list (list N) :=
  rows_from first_author_table 1 (all_entries pooled).

(** [parse_file] is the bibliography parser: the entries of the file at a
    path, or [None] when it raises.  One file that fails fails the call. *)
Definition bib_to_table_rows (parse_file : list N -> option (list Entry))
  (bib_files : list (list N)) (first_author_table : bool)
  : option (list (list N)) :=
  pooled ← mapM parse_file bib_files;
  Some (rows_of first_author_table (concat pooled)).

(** The page template, line by line as the source writes it; the lines are
    joined by newlines. *)
Definition HTML_TEMPLATE_lines : list (list N) :=
  [lit "<!DOCTYPE html>";
   lit "<html lang=" ++ dq ++ lit "en" ++ dq ++ lit ">";
   lit "  <head>";
   lit "    <!-- Global site tag (gtag.js) - Google Analytics -->";
   lit "    <script async src=" ++ dq
   ++ lit "https://www.googletagmanager.com/gtag/js?id=UA-143048532-1" ++ dq
   ++ lit "></script>";
   lit "    <script>";
   lit "    window.dataLayer = window.dataLayer || [];";
   lit "    function gtag(){{dataLayer.push(arguments);}}";
   lit "    gtag('js', new Date());";
   lit "    gtag('config', 'UA-143048532-1');";
   lit "    </script> ";
   lit "    <meta charset=" ++ dq ++ lit "utf-8" ++ dq ++ lit ">";
   lit "    <link rel=" ++ dq ++ lit "icon" ++ dq ++ lit " type=" ++ dq
   ++ lit "image/x-icon" ++ dq ++ lit " href=" ++ dq ++ lit "fig/favicon.ico"
   ++ dq ++ lit ">";
   lit "    <link rel=" ++ dq ++ lit "stylesheet" ++ dq ++ lit " href=" ++ dq
   ++ lit "common/css/beni.css" ++ dq ++ lit ">";
   lit "    <title>Publications</title>";
   lit "    <style>";
   lit "      table.pub-list {{";
   lit "        border-collapse: collapse;";
   lit "        width: 100%;";
   lit "      }}";
   lit "      table.pub-list th, table.pub-list td {{";
   lit "        border: 1px solid #ddd;";
   lit "        padding: 8px;";
   lit "        vertical-align: top;";
   lit "      }}";
   lit "      table.pub-list th {{";
   lit "        background-color: #f2f2f2;";
   lit "        text-align: left;";
   lit "      }}";
   lit "      .authors {{";
   lit "        white-space: pre-line;";
   lit "      }}";
   lit "    </style>";
   lit "  </head>";
   lit "  <body>";
   lit "    <div id=" ++ dq ++ lit "page" ++ dq ++ lit ">";
   lit "{tables}";
   [];
   lit "      <h1>Links</h1>";
   lit "      <hr>";
   lit "      <ul>";
   lit "        <li><a href=" ++ dq ++ lit "index.html" ++ dq
   ++ lit ">Back to home</a></li>";
   lit "      </ul>";
   [];
   lit "      <footer id=" ++ dq ++ lit "pageFoot" ++ dq ++ lit ">";
   lit "        <p id=" ++ dq ++ lit "copyright" ++ dq
   ++ lit "><small>Copyright &copy; Jin BENIYAMA</small></p>";
   lit "      </footer>";
   lit "    </div>";
   lit "  </body>";
   lit "</html>";
   []].

Definition HTML_TEMPLATE : list N := join_lines HTML_TEMPLATE_lines.

Definition generate_table (parse_file : list N -> option (list Entry))
  (title : list N) (bib_files : list (list N)) (first_author_table : bool)
  : option (list N) :=
  if nonempty bib_files then
    rows ← bib_to_table_rows parse_file bib_files first_author_table;
    Some (lit "      <h1>" ++ title ++ lit "</h1>" ++ nl
          ++ lit "      <hr>" ++ nl
          ++ lit "      <table class=" ++ dq ++ lit "pub-list" ++ dq ++ lit ">"
          ++ nl
          ++ lit "        <tr>" ++ nl
          ++ lit "          <th>#</th>" ++ nl
          ++ lit "          <th>Authors</th>" ++ nl
          ++ lit "          <th>Title</th>" ++ nl
          ++ lit "          <th>Journal / Year</th>" ++ nl
          ++ lit "        </tr>" ++ nl
          ++ join nl rows ++ nl
          ++ lit "      </table>" ++ nl)
  else Some [].

(** The value of [tables] when [main] formats the page: the table of the
    first-author articles, then the table of the Nth-author articles, each
    only when its option names files.  [None]: the parser raised. *)
Definition tables (parse_file : list N -> option (list Entry))
  (first Nth : option (list (list N))) : option (list N) :=
  t1 ← match first with
       | Some files =>
           if nonempty files
           then generate_table parse_file
                  (lit "Refereed Articles (First author)") files true
           else Some []
       | None => Some []
       end;
  t2 ← match Nth with
       | Some files =>
           if nonempty files
           then generate_table parse_file
                  (lit "Refereed Articles (Nth author)") files false
           else Some []
       | None => Some []
       end;
  Some (t1 ++ t2).



End Bib.

(** ** [script/presentation_html.py] *)

Module Pres.

Import Py.
Import Bib.

(** The script parses the two logs, renders the page and, when asked, has
    matplotlib draw the chart.  As it stands the file is no Python program:
    line 167, the call that plots the totals in
    [plot_yearly_counts_scatter], ends with a stray character (U+30FC), so
    that every run stops with a syntax error before [main] is called.  What
    follows embeds the functions whose own text is valid, as they are
    written: [parse_txt_file], [make_table_html], the [count_per_year] inside
    [plot_yearly_counts_scatter], and the page [main] formats.  The rest of
    [plot_yearly_counts_scatter], and [main] as a whole, which calls it, are
    not embedded. *)

Definition HTML_TEMPLATE_lines : list (list N) :=
  [lit "<!DOCTYPE html>";
   lit "<html lang=" ++ dq ++ lit "en" ++ dq ++ lit ">";
   lit "  <head>";
   lit "    <meta charset=" ++ dq ++ lit "utf-8" ++ dq ++ lit ">";
   lit "    <link rel=" ++ dq ++ lit "icon" ++ dq ++ lit " type=" ++ dq
   ++ lit "image/x-icon" ++ dq ++ lit " href=" ++ dq ++ lit "fig/favicon.ico"
   ++ dq ++ lit ">";
   lit "    <link rel=" ++ dq ++ lit "stylesheet" ++ dq ++ lit " href=" ++ dq
   ++ lit "common/css/beni.css" ++ dq ++ lit ">";
   lit "    <title>Presentations</title>";
   lit "    <style>";
   lit "      table.pub-list {{";
   lit "        border-collapse: collapse;";
   lit "        width: 100%;";
   lit "      }}";
   lit "      table.pub-list th, table.pub-list td {{";
   lit "        border: 1px solid #ddd;";
   lit "        padding: 8px;";
   lit "        vertical-align: top;";
   lit "      }}";
   lit "      table.pub-list th {{";
   lit "        background-color: #f2f2f2;";
   lit "        text-align: left;";
   lit "      }}";
   lit "      .authors {{";
   lit "        white-space: pre-line;";
   lit "      }}";
   lit "    </style>";
   lit "  </head>";
   lit "  <body>";
   lit "    <div id=" ++ dq ++ lit "page" ++ dq ++ lit ">";
   lit "  These are list of my presentations. Last updated on {last_update} ";
   lit "  <img src=" ++ dq ++ lit "{fig_file}" ++ dq ++ lit " alt=" ++ dq
   ++ lit "Presentations per Year" ++ dq ++ lit " style=" ++ dq
   ++ lit "max-width:100%;height:auto;" ++ dq ++ lit ">";
   [];
   lit "{tables}";
   [];
   lit "      <h1>Links</h1>";
   lit "      <hr>";
   lit "      <ul>";
   lit "        <li><a href=" ++ dq ++ lit "index.html" ++ dq
   ++ lit ">Back to home</a></li>";
   lit "      </ul>";
   [];
   lit "      <footer id=" ++ dq ++ lit "pageFoot" ++ dq ++ lit ">";
   lit "        <p id=" ++ dq ++ lit "copyright" ++ dq
   ++ lit "><small>Copyright &copy; Jin BENIYAMA</small></p>";
   lit "      </footer>";
   lit "    </div>";
   lit "  </body>";
   lit "</html>";
   []].

Definition HTML_TEMPLATE : list N := join_lines HTML_TEMPLATE_lines.

(** The truth value of a [dict]: it has an item. *)
Definition nonempty_dict (d : gmap (list N) (list N)) : bool :=
  bool_decide (d ≠ ∅).

(** One turn of the loop of [parse_txt_file], on [entries] and [current]. *)
Definition parse_line
  (st : list (gmap (list N) (list N)) * gmap (list N) (list N))
  (line : list N)
  : list (gmap (list N) (list N)) * gmap (list N) (list N) :=
  let '(entries, current) := st in
  let line := strip line in
  if negb (nonempty line) then
    if nonempty_dict current then (entries ++ [current], ∅)
    else (entries, current)
  else if negb (has_char 58 line) then (entries, current)
  else
    let '(key, val) := split_once 58 line in
    (entries, <[strip key := strip val]> current).

Definition parse_lines (lines : list (list N))
  : list (gmap (list N) (list N)) :=
  let '(entries, current) := fold_left parse_line lines ([], ∅) in
  if nonempty_dict current then entries ++ [current] else entries.

(** [parse_txt_file] on the text of the file. *)
Definition parse_txt_file (text : list N) : list (gmap (list N) (list N)) :=
  parse_lines (file_lines text).

Definition row_html (i : Z) (e : gmap (list N) (list N)) : list N :=
  let presenters := get e (lit "Presenters") (lit "Unknown") in
  let title_val := get e (lit "Title") (lit "No title") in
  let event := get e (lit "Event") [] in
  let location := get e (lit "Location") [] in
  let dates := get e (lit "Dates") [] in
  let type_val := get e (lit "Type") [] in
  let url := strip (get e (lit "URL") []) in
  let memo := get e (lit "Memo") [] in
  let title_html :=
    if nonempty url then
      lit "<a href=" ++ dq ++ url ++ dq ++ lit " target=" ++ dq
      ++ lit "_blank" ++ dq ++ lit ">" ++ title_val ++ lit "</a>"
    else title_val in
  lit "        <tr>" ++ nl
  ++ lit "          <td>" ++ str_of_int i ++ lit "</td>" ++ nl
  ++ lit "          <td class='authors'>" ++ presenters ++ lit "</td>" ++ nl
  ++ lit "          <td>" ++ title_html ++ lit "</td>" ++ nl
  ++ lit "          <td>" ++ event ++ lit "</td>" ++ nl
  ++ lit "          <td>" ++ location ++ lit "</td>" ++ nl
  ++ lit "          <td>" ++ dates ++ lit "</td>" ++ nl
  ++ lit "          <td>" ++ type_val ++ lit "</td>" ++ nl
  ++ lit "          <td>" ++ memo ++ lit "</td>" ++ nl
  ++ lit "        </tr>".

(** The rows of [make_table_html], one for each entry, numbered from [i]. *)
Fixpoint rows_from (i : Z) (entries : list (gmap (list N) (list N)))
  : list (list N) :=
  match entries with
  | [] => []
  | e :: entries' => row_html i e :: rows_from (i + 1) entries'
  end.

Definition make_table_html (entries : list (gmap (list N) (list N)))
  (title : list N) : list N :=
  let rows := rows_from 1 entries in
  lit "      <h1>" ++ title ++ lit "</h1>" ++ nl
  ++ lit "      <hr>" ++ nl
  ++ lit "      <table class=" ++ dq ++ lit "pub-list" ++ dq ++ lit ">" ++ nl
  ++ lit "        <tr>" ++ nl
  ++ lit "          <th>#</th>" ++ nl
  ++ lit "          <th>Presenters</th>" ++ nl
  ++ lit "          <th>Title</th>" ++ nl
  ++ lit "          <th>Event</th>" ++ nl
  ++ lit "          <th>Location</th>" ++ nl
  ++ lit "          <th>Dates</th>" ++ nl
  ++ lit "          <th>Type</th>" ++ nl
  ++ lit "          <th>Memo</th>" ++ nl
  ++ lit "        </tr>" ++ nl
  ++ join nl rows ++ nl
  ++ lit "      </table>" ++ nl.

(** [re.split(r'[;-]', dates)[0].strip()], where the second character of the
    class is the en dash (code point 8211): the text before the first
    semicolon or en dash, or all of it when there is none, trimmed. *)
Definition is_date_sep (c : N) : bool := (c =? 59) || (c =? 8211).

Definition start_date (dates : list N) : list N :=
  strip (take_while (fun c => negb (is_date_sep c)) dates).

(** One turn of the loop of [count_per_year].  [counts] is a [Counter]: a
    year it does not hold counts as zero. *)
Definition count_step (counts : gmap Z nat) (e : gmap (list N) (list N))
  : gmap Z nat :=
  let dates := get e (lit "Dates") [] in
  if nonempty dates then
    match int (take 4 (start_date dates)) with
    | Some year => <[year := S (default O (counts !! year))]> counts
    | None => counts
    end
  else counts.

Definition count_per_year (entries : list (gmap (list N) (list N)))
  : gmap Z nat :=
  fold_left count_step entries ∅.

(** [format] of [args.fig]: the path, or [None] when [--fig] is not given. *)
Definition fig_value (fig : option (list N)) : value :=
  match fig with
  | Some path => VStr path
  | None => VNone
  end.

(** The text [main] formats at lines 195 to 200, from the date stamp, the
    option [--fig] and the entries of the two files. *)
Definition page (now : list N) (fig : option (list N))
  (domestic_entries international_entries : list (gmap (list N) (list N)))
  : option (list N) :=
  let tables_html :=
    make_table_html domestic_entries (lit "Domestic Presentations")
    ++ make_table_html international_entries
         (lit "International Presentations") in
  format HTML_TEMPLATE
    [(lit "last_update", VStr now); (lit "fig_file", fig_value fig);
     (lit "tables", VStr tables_html)].

End Pres.

(** ** The statements of the specification, and sample inputs *)

Module Spec.

Import Py.
Import Bib.

(** The year an entry states: [None] when the field is missing or is not a
    number. *)
Definition year_field (entry : Entry) : option Z :=
  fields entry !! lit "year" ≫= int.

(** As the specification words it: in the sorted entries, an entry without a
    valid year stands behind every entry with one. *)
Definition invalid_years_last (pooled : list Entry) : Prop :=
  forall (i j : nat) (a b : Z * Entry),
    all_entries pooled !! i = Some a -> all_entries pooled !! j = Some b ->
    year_field a.2 = None -> is_Some (year_field b.2) -> (j < i)%nat.

(** As the specification words it: with at most three authors the cell of the
    first-author table never holds the words et al. *)
Definition no_et_al_up_to_three (authors : list (list N)) : Prop :=
  authors <> [] -> (length authors <= 3)%nat ->
  contains (lit "et al.") (authors_html true authors) = false.

(** As the specification words it: a DOI field that is present decides the
    target of the link. *)
Definition doi_field_decides (entry : Entry) : Prop :=
  forall doi, fields entry !! lit "doi" = Some doi ->
    url_of entry = lit "https://doi.org/" ++ doi.

(** The join of the parts that are not empty, as the specification words it:
    an empty part is left out, and a separator stands between two parts that
    are kept. *)
Fixpoint join_omitting_empty (sep : list N) (parts : list (list N)) : list N :=
  match parts with
  | [] => []
  | p :: rest =>
      match p, join_omitting_empty sep rest with
      | [], r => r
      | _ :: _, [] => p
      | _ :: _, (_ :: _) as r => p ++ sep ++ r
      end
  end.

(** An entry with the given fields and authors. *)
Definition entry_of (items : list (list N * list N))
  (authors : list (list N)) : Entry :=
  {| fields := dict_of_items items;
     persons := {[ lit "author" := authors ]} |}.

Definition entry_year_10000 : Entry :=
  entry_of [(lit "title", lit "Late"); (lit "year", lit "10000")] [lit "A, B"].

Definition entry_no_year : Entry :=
  entry_of [(lit "title", lit "In press")] [lit "C, D"].

Definition entry_2020 : Entry :=
  entry_of [(lit "title", lit "First"); (lit "year", lit "2020");
            (lit "journal", lit "\apj"); (lit "volume", lit "900");
            (lit "doi", lit "10.1000/x"); (lit "url", lit "http://example.org")]
    [lit "Beniyama, Jin"; lit "B, C"; lit "D, E"; lit "F, G"].

Definition entry_2020_bis : Entry :=
  entry_of [(lit "title", lit "Second"); (lit "year", lit "2020");
            (lit "journal", lit "Icarus"); (lit "pages", lit "12")]
    [lit "Beniyama, Jin"].

Definition entry_empty_doi : Entry :=
  entry_of [(lit "title", lit "Linked"); (lit "doi", []);
            (lit "url", lit "http://example.org/paper")] [lit "A, B"].

(** An author list whose last name is the braced words et al., as a
    bibliography file may write them. *)
Definition authors_with_et_al : list (list N) :=
  [lit "Smith, J."; lit "{et al.}"].

(** *** The presentation log, as the specification words it *)

(** The blocks of a sequence of trimmed lines: a blank line ends a block.
    [cur] is the block so far. *)
Fixpoint split_blocks (cur : list (list N)) (lines : list (list N))
  : list (list (list N)) :=
  match lines with
  | [] => [cur]
  | line :: lines' =>
      if nonempty line then split_blocks (cur ++ [line]) lines'
      else cur :: split_blocks [] lines'
  end.

(** The field of a trimmed line: the trimmed text before its first colon and
    the trimmed text after it; a line without a colon has none. *)
Definition field_of_line (line : list N) : option (list N * list N) :=
  if has_char 58 line
  then Some (strip (split_once 58 line).1, strip (split_once 58 line).2)
  else None.

Definition add_field (record : gmap (list N) (list N)) (line : list N)
  : gmap (list N) (list N) :=
  match field_of_line line with
  | Some (key, val) => <[key := val]> record
  | None => record
  end.

(** The record of a block: the fields of its lines, a later line winning. *)
Definition record_of_block (block : list (list N)) : gmap (list N) (list N) :=
  fold_left add_field block ∅.

(** The records of the lines of a file: one for each block that has a field. *)
Definition records_of_lines (lines : list (list N))
  : list (gmap (list N) (list N)) :=
  List.filter Pres.nonempty_dict
    (List.map record_of_block (split_blocks [] (List.map strip lines))).

(** A line of a block: no line end in it. *)
Definition no_line_end (line : list N) : bool :=
  negb (has_char 10 line) && negb (has_char 13 line).

(** The year [count_per_year] reads from a record: the number in the first
    four characters of the start date. *)
Definition start_year (e : gmap (list N) (list N)) : option Z :=
  int (take 4 (Pres.start_date (get e (lit "Dates") []))).

(** The log of the example of the specification, with no line end at its end. *)
Definition sample_log : list N :=
  lit "Presenters: Jin Beniyama" ++ nl
  ++ lit "Title: Light curves" ++ nl
  ++ lit "Dates: 2023-04-10; 2023-04-12".

(** *** The pages *)

(** Where [needle] first starts in [x]; the length of [x] when it does not
    occur. *)
Fixpoint find_sub (needle x : list N) : nat :=
  match x with
  | [] => O
  | _ :: x' => if startswith needle x then O else S (find_sub needle x')
  end.

(** The template before and after the replacement field of a name. *)
Definition before_field (name template : list N) : list N :=
  take (find_sub (lit "{" ++ name ++ lit "}") template) template.

Definition after_field (name template : list N) : list N :=
  drop (find_sub (lit "{" ++ name ++ lit "}") template + length name + 2)
    template.

(** A piece of a template with no field in it, as [format] writes it. *)
Definition plain (piece : list N) : list N := default [] (format piece []).

(** The presentation page before the date stamp, and after the tables. *)
Definition page_top : list N :=
  plain (before_field (lit "last_update") Pres.HTML_TEMPLATE).

Definition page_bottom : list N :=
  plain (after_field (lit "tables") Pres.HTML_TEMPLATE).

(** The image element of the chart, with the given source. *)
Definition img_tag (src : list N) : list N :=
  lit "<img src=" ++ dq ++ src ++ dq ++ lit " alt=" ++ dq
  ++ lit "Presentations per Year" ++ dq ++ lit " style=" ++ dq
  ++ lit "max-width:100%;height:auto;" ++ dq ++ lit ">".

(** The two tables of the presentation page. *)
Definition tables_of (domestic international : list (gmap (list N) (list N)))
  : list N :=
  Pres.make_table_html domestic (lit "Domestic Presentations")
  ++ Pres.make_table_html international (lit "International Presentations").

(** *** More sample inputs and measures *)




(** How many records of a log start in the year [y]. *)
Definition started_in (y : Z) (entries : list (gmap (list N) (list N)))
  : nat :=
  length (filter (fun e => start_year e = Some y) entries).

(** The line of a log that states a field. *)
Definition field_line (kv : list N * list N) : list N :=
  kv.1 ++ lit ": " ++ kv.2.

(** The keys a row of the presentation table reads. *)
Definition row_keys : list (list N) :=
  [lit "Presenters"; lit "Title"; lit "Event"; lit "Location"; lit "Dates";
   lit "Type"; lit "URL"; lit "Memo"].

(** A record of a talk, and a second one in the same year. *)
Definition talk_2023 : gmap (list N) (list N) :=
  dict_of_items [(lit "Title", lit "Light curves");
                 (lit "Dates", lit "2023-04-10; 2023-04-12")].

Definition talk_2023_bis : gmap (list N) (list N) :=
  dict_of_items [(lit "Title", lit "Spectra"); (lit "Dates", lit "2023-09-01");
                 (lit "URL", lit "  ")].

Definition talk_2021 : gmap (list N) (list N) :=
  dict_of_items [(lit "Title", lit "Colors"); (lit "Dates", lit "2021-03-15")].

Definition talk_undated : gmap (list N) (list N) :=
  dict_of_items [(lit "Title", lit "Plans"); (lit "Dates", lit "TBD")].

End Spec.

(** ** Facts about the built-ins *)

Import Py.
Import Spec.

Example int_samples :
  int (lit "2023") = Some 2023%Z /\ int (lit " +2_023 ") = Some 2023%Z
  /\ int (lit "-12") = Some (-12)%Z /\ int (lit "2023_") = None
  /\ int (lit "20 23") = None /\ int [] = None
  /\ int [65298; 65296; 65298; 65299] = Some 2023%Z
  /\ int [28; 49] = None /\ int [133; 50] = Some 2%Z.
Proof. repeat split; reflexivity. Qed.

Example str_samples :
  str_of_int 2023 = lit "2023" /\ str_of_int (-7) = lit "-7"
  /\ str_of_int 0 = lit "0"
  /\ strip (lit "  a b ") = lit "a b"
  /\ replace (lit "ab") (lit "X") (lit "ababa") = lit "XXa"
  /\ replace (lit "aa") (lit "b") (lit "aaa") = lit "ba"
  /\ split_once 58 (lit "k: v:w") = (lit "k", lit " v:w")
  /\ join (lit ", ") [lit "a"; lit "b"; lit "c"] = lit "a, b, c"
  /\ format (lit "a{{b}} {x}-{y}") [(lit "x", VStr (lit "1")); (lit "y", VNone)]
     = Some (lit "a{b} 1-None").
Proof. repeat split; reflexivity. Qed.

(** The accents are replaced before the braces are removed: an accent
    written with braces around the letter stays. *)
Example latex_samples :
  Bib.latex_to_unicode (lit "{\" ++ dq ++ lit "o}") = [246]
  /\ Bib.latex_to_unicode (92 :: dq ++ lit "{o}") = 92 :: dq ++ lit "o"
  /\ Bib.latex_to_unicode (lit "Sch{\" ++ dq ++ lit "a}fer, M. and {\'E}")
     = lit "Sch" ++ [228] ++ lit "fer, M. and \'E".
Proof. repeat split; reflexivity. Qed.

Example bib_row_sample :
  Bib.rows_of true [entry_2020]
  = [Bib.join_lines
       [lit "        <tr>";
        lit "          <td>1</td>";
        lit "          <td class='authors'><b>Beniyama, Jin</b>, B, C, D, E, et al.</td>";
        lit "          <td><a href=" ++ dq ++ lit "https://doi.org/10.1000/x"
        ++ dq ++ lit " target=" ++ dq ++ lit "_blank" ++ dq
        ++ lit ">First</a></td>";
        lit "          <td>Astrophysical Journal, 900, 2020</td>";
        lit "        </tr>"]].
Proof. vm_compute. reflexivity. Qed.

Example pres_rows_sample :
  Pres.rows_from 1 (Pres.parse_txt_file sample_log)
  = [Bib.join_lines
       [lit "        <tr>";
        lit "          <td>1</td>";
        lit "          <td class='authors'>Jin Beniyama</td>";
        lit "          <td>Light curves</td>";
        lit "          <td></td>";
        lit "          <td></td>";
        lit "          <td>2023-04-10; 2023-04-12</td>";
        lit "          <td></td>";
        lit "          <td></td>";
        lit "        </tr>"]].
Proof. vm_compute. reflexivity. Qed.

(** [str(n)] is never the empty string. *)
Lemma str_of_int_nonempty z : nonempty (str_of_int z) = true.
Proof.
  unfold str_of_int.
  destruct z as [|p|p]; simpl; try reflexivity;
    pose proof (Unsigned.to_uint_nonnil p) as Hp;
    destruct (Pos.to_uint p); simpl; congruence.
Qed.

Lemma nonempty_true {A} (l : list A) : nonempty l = true <-> l <> [].
Proof. destruct l; simpl; split; congruence. Qed.

Lemma startswith_app_char n c x r :
  has_char c n = false -> startswith n (x ++ c :: r) = startswith n x.
Proof.
  revert x. induction n as [|m n IH]; intros x Hc; [reflexivity|].
  simpl in Hc. apply orb_false_iff in Hc as [Hm Hn].
  destruct x as [|a x]; simpl.
  - rewrite N.eqb_sym, Hm. reflexivity.
  - rewrite IH by assumption. reflexivity.
Qed.

(** A needle that does not hold the character [c] occurs in [x ++ c :: r]
    only inside [x] or inside [r]. *)
Lemma contains_app_char n c x r :
  n <> [] -> has_char c n = false ->
  contains n (x ++ c :: r) = contains n x || contains n r.
Proof.
  intros Hn Hc. induction x as [|a x IH].
  - destruct n as [|m n]; [congruence|].
    cbn [app]. cbn [contains].
    replace (startswith (m :: n) (c :: r)) with false.
    + reflexivity.
    + simpl in Hc. apply orb_false_iff in Hc as [Hm _].
      simpl. rewrite N.eqb_sym, Hm. reflexivity.
  - change ((a :: x) ++ c :: r) with (a :: (x ++ c :: r)).
    cbn [contains]. rewrite IH.
    change (a :: (x ++ c :: r)) with ((a :: x) ++ c :: r).
    rewrite startswith_app_char by assumption.
    rewrite orb_assoc. reflexivity.
Qed.

(** A needle that does not start with [c] does not occur at a leading [c]. *)
Lemma contains_cons_other m n c x :
  (m =? c) = false -> contains (m :: n) (c :: x) = contains (m :: n) x.
Proof. intros H. cbn [contains startswith]. rewrite H. reflexivity. Qed.

(** ** Facts about the stable sort *)

Section sorting.
Context {A : Type} (key : A -> Z).

Lemma insert_by_perm x l : Bib.insert_by key x l ≡ₚ x :: l.
Proof.
  induction l as [|y l IH]; simpl; [reflexivity|].
  destruct (key x <=? key y)%Z; [reflexivity|].
  rewrite IH. apply Permutation_swap.
Qed.

Lemma sort_by_perm l : Bib.sort_by key l ≡ₚ l.
Proof.
  induction l as [|x l IH]; simpl; [reflexivity|].
  rewrite insert_by_perm, IH. reflexivity.
Qed.

Lemma insert_by_sorted x l :
  StronglySorted (fun a b => (key a <= key b)%Z) l ->
  StronglySorted (fun a b => (key a <= key b)%Z) (Bib.insert_by key x l).
Proof.
  induction 1 as [|y l Hl IH Hy]; simpl.
  - repeat constructor.
  - destruct (Z.leb_spec (key x) (key y)).
    + constructor; [constructor; assumption|].
      constructor; [assumption|].
      eapply Forall_impl; [exact Hy|]. simpl. intros; lia.
    + constructor; [assumption|].
      rewrite insert_by_perm. constructor; [lia|assumption].
Qed.

Lemma sort_by_sorted l :
  StronglySorted (fun a b => (key a <= key b)%Z) (Bib.sort_by key l).
Proof.
  induction l as [|x l IH]; simpl; [constructor|].
  apply insert_by_sorted, IH.
Qed.

Lemma sorted_lookup_le l i j a b :
  StronglySorted (fun a b => (key a <= key b)%Z) l ->
  (i <= j)%nat -> l !! i = Some a -> l !! j = Some b ->
  (key a <= key b)%Z.
Proof.
  intros Hl. revert i j. induction Hl as [|y l Hl IH Hy]; intros i j Hij Hi Hj.
  - rewrite lookup_nil in Hi. discriminate.
  - destruct i as [|i], j as [|j]; simpl in *; try lia.
    + simplify_eq. lia.
    + simplify_eq. rewrite Forall_forall in Hy.
      apply Hy. eapply list_elem_of_lookup_2. exact Hj.
    + eapply IH; [|exact Hi|exact Hj]. lia.
Qed.

(** An element goes in behind the elements with a smaller key only, so the
    elements of one key keep their order. *)
Lemma filter_insert_by y x l :
  filter (fun a => key a = y) (Bib.insert_by key x l)
  = filter (fun a => key a = y) (x :: l).
Proof.
  induction l as [|z l IH]; simpl; [reflexivity|].
  destruct (Z.leb_spec (key x) (key z)); [reflexivity|].
  rewrite !filter_cons in *. rewrite IH.
  repeat case_decide; try reflexivity; lia.
Qed.

Lemma sort_by_stable y l :
  filter (fun a => key a = y) (Bib.sort_by key l)
  = filter (fun a => key a = y) l.
Proof.
  induction l as [|x l IH]; simpl; [reflexivity|].
  rewrite filter_insert_by, !filter_cons, IH. reflexivity.
Qed.

(** Two sorted lists that hold the same elements of every key, in the same
    order, are equal. *)
Lemma stable_sorted_unique l1 l2 :
  StronglySorted (fun a b => (key a <= key b)%Z) l1 ->
  StronglySorted (fun a b => (key a <= key b)%Z) l2 ->
  (forall y, filter (fun a => key a = y) l1 = filter (fun a => key a = y) l2) ->
  l1 = l2.
Proof.
  revert l2. induction l1 as [|x l1 IH]; intros l2 H1 H2 Hf.
  - destruct l2 as [|z l2]; [reflexivity|].
    specialize (Hf (key z)). rewrite filter_cons_True in Hf by reflexivity.
    discriminate.
  - destruct l2 as [|z l2].
    { specialize (Hf (key x)). rewrite filter_cons_True in Hf by reflexivity.
      discriminate. }
    apply StronglySorted_inv in H1 as [H1 Hx].
    apply StronglySorted_inv in H2 as [H2 Hz].
    rewrite Forall_forall in Hx, Hz.
    assert (Hkey : key z = key x).
    { destruct (decide (key z = key x)) as [|Hne]; [assumption|exfalso].
      assert (Hzin : z ∈ filter (fun a => key a = key z) (x :: l1))
        by (rewrite Hf, filter_cons_True by reflexivity; left).
      assert (Hxin : x ∈ filter (fun a => key a = key x) (z :: l2))
        by (rewrite <- Hf, filter_cons_True by reflexivity; left).
      apply list_elem_of_filter in Hzin as [_ Hzin].
      apply list_elem_of_filter in Hxin as [_ Hxin].
      apply elem_of_cons in Hzin as [->|Hzin]; [congruence|].
      apply elem_of_cons in Hxin as [->|Hxin]; [congruence|].
      specialize (Hx z Hzin). specialize (Hz x Hxin). simpl in *. lia. }
    pose proof (Hf (key x)) as Hk.
    rewrite (filter_cons_True _ x), (filter_cons_True _ z) in Hk
      by (reflexivity || assumption).
    injection Hk as -> Hk. f_equal. apply IH; [assumption|assumption|].
    intros y. specialize (Hf y). rewrite !filter_cons in Hf.
    case_decide; [injection Hf; auto|assumption].
Qed.

(** So [sort_by] is the stable sort, whatever the algorithm behind
    [list.sort]: any sorted arrangement of [l] that keeps the order of the
    elements of each key is [sort_by key l]. *)
Lemma sort_by_unique l l' :
  StronglySorted (fun a b => (key a <= key b)%Z) l' ->
  (forall y, filter (fun a => key a = y) l' = filter (fun a => key a = y) l) ->
  l' = Bib.sort_by key l.
Proof.
  intros Hs Hf. apply stable_sorted_unique; [assumption|apply sort_by_sorted|].
  intros y. rewrite Hf, sort_by_stable. reflexivity.
Qed.
End sorting.

(** ** The bibliography converter *)

Section bibliography.
Import Bib.

Lemma year_int_spec (entry : Entry) :
  year_int entry = default 9999%Z (year_field entry).
Proof.
  unfold year_int, year_field, get.
  destruct (fields entry !! lit "year") as [y|]; simpl; reflexivity.
Qed.

Lemma length_rows_from b i l : length (rows_from b i l) = length l.
Proof.
  revert i. induction l as [|[y e] l IH]; intros i; simpl; [reflexivity|].
  rewrite IH. reflexivity.
Qed.

Lemma lookup_rows_from b i l (k : nat) :
  rows_from b i l !! k
  = (fun ye => row_html b (i + Z.of_nat k) ye.1 ye.2) <$> l !! k.
Proof.
  revert i k. induction l as [|[y e] l IH]; intros i k; [reflexivity|].
  destruct k as [|k].
  - simpl. rewrite Z.add_0_r. reflexivity.
  - change (rows_from b i ((y, e) :: l) !! S k)
      with (rows_from b (i + 1) l !! k).
    change (((y, e) :: l) !! S k) with (l !! k).
    rewrite IH.
    replace (i + 1 + Z.of_nat k)%Z with (i + Z.of_nat (S k))%Z by lia.
    reflexivity.
Qed.

Lemma all_entries_perm pooled :
  all_entries pooled ≡ₚ (fun e => (year_int e, e)) <$> pooled.
Proof. apply sort_by_perm. Qed.

Lemma all_entries_key pooled (a : Z * Entry) :
  a ∈ all_entries pooled -> a.1 = year_int a.2.
Proof.
  rewrite all_entries_perm. intros Ha.
  apply list_elem_of_fmap in Ha as (e & -> & _). reflexivity.
Qed.
End bibliography.

(** C1, as amended.  The rows render the pooled entries in the order of the
    stable sort by year: row [k] is the entry at place [k], numbered [k + 1];
    the sorted entries are the pooled ones; their years never decrease; an
    entry whose year is missing or is no number stands behind every entry
    with a valid year below 9999; and the entries of one year keep the order
    in which they were pooled. *)
Theorem rows_ordered_by_year (first_author_table : bool)
  (pooled : list Bib.Entry) :
  let out := Bib.all_entries pooled in
  length (Bib.rows_of first_author_table pooled) = length pooled
  /\ (forall k : nat,
        Bib.rows_of first_author_table pooled !! k
        = (fun ye => Bib.row_html first_author_table (1 + Z.of_nat k) ye.1 ye.2)
            <$> out !! k)
  /\ out ≡ₚ (fun e => (Bib.year_int e, e)) <$> pooled
  /\ (forall (i j : nat) a b,
        (i <= j)%nat -> out !! i = Some a -> out !! j = Some b ->
        (a.1 <= b.1)%Z)
  /\ (forall (i j : nat) a b y,
        out !! i = Some a -> out !! j = Some b ->
        year_field a.2 = None -> year_field b.2 = Some y -> (y < 9999)%Z ->
        (j < i)%nat)
  /\ (forall y,
        filter (fun ye => ye.1 = y) out
        = filter (fun ye => ye.1 = y)
            ((fun e => (Bib.year_int e, e)) <$> pooled)).
Proof.
  intros out.
  assert (Hle : forall (i j : nat) a b,
             (i <= j)%nat -> out !! i = Some a -> out !! j = Some b ->
             (a.1 <= b.1)%Z).
  { intros i j a b. apply (sorted_lookup_le fst). apply sort_by_sorted. }
  split; [|split; [|split; [|split; [|split]]]].
  - unfold Bib.rows_of. rewrite length_rows_from.
    rewrite (Permutation_length (all_entries_perm pooled)).
    apply length_fmap.
  - intros k. apply lookup_rows_from.
  - apply all_entries_perm.
  - exact Hle.
  - intros i j a b y Hi Hj Ha Hb Hy.
    destruct (Nat.lt_ge_cases j i) as [|Hij]; [assumption|exfalso].
    pose proof (Hle i j a b Hij Hi Hj) as Hab.
    rewrite (all_entries_key pooled a), (all_entries_key pooled b) in Hab
      by (eapply list_elem_of_lookup_2; eassumption).
    rewrite !year_int_spec, Ha, Hb in Hab. simpl in Hab. lia.
  - intros y. apply (sort_by_stable fst).
Qed.

(** An example for C1: two entries of 2020 keep their order, and the entry
    without a year goes last. *)
Lemma rows_ordered_by_year_witness :
  Bib.all_entries [entry_no_year; entry_2020; entry_2020_bis]
  = [(2020%Z, entry_2020); (2020%Z, entry_2020_bis); (9999%Z, entry_no_year)]
  /\ year_field entry_no_year = None
  /\ year_field entry_2020_bis = Some 2020%Z
  /\ (1 < 2)%nat.
Proof.
  split; [vm_compute; reflexivity|].
  split; [vm_compute; reflexivity|].
  split; [vm_compute; reflexivity|].
  pose proof (rows_ordered_by_year true
                [entry_no_year; entry_2020; entry_2020_bis]) as H.
  cbv zeta in H. destruct H as (_ & _ & _ & _ & H & _).
  apply (H 2%nat 1%nat (9999%Z, entry_no_year) (2020%Z, entry_2020_bis) 2020%Z);
    vm_compute; reflexivity.
Defined.

(** C1, as the specification states it, fails: an entry of the year 10000
    is valid, and the entry without a year is sorted before it. *)
Lemma invalid_years_last_fails :
  Bib.all_entries [entry_year_10000; entry_no_year]
  = [(9999%Z, entry_no_year); (10000%Z, entry_year_10000)]
  /\ year_field entry_no_year = None
  /\ year_field entry_year_10000 = Some 10000%Z
  /\ ~ invalid_years_last [entry_year_10000; entry_no_year].
Proof.
  assert (Hout : Bib.all_entries [entry_year_10000; entry_no_year]
                 = [(9999%Z, entry_no_year); (10000%Z, entry_year_10000)])
    by (vm_compute; reflexivity).
  assert (Hno : year_field entry_no_year = None) by (vm_compute; reflexivity).
  assert (Hy : year_field entry_year_10000 = Some 10000%Z)
    by (vm_compute; reflexivity).
  repeat split; try assumption.
  intros H. unfold invalid_years_last in H. rewrite Hout in H.
  specialize (H 0%nat 1%nat _ _ eq_refl eq_refl Hno).
  simpl in H. rewrite Hy in H. specialize (H (mk_is_Some _ _ eq_refl)). lia.
Qed.

Section author_cells.
Import Bib.

(** The words et al. as code points. *)
Lemma et_al_chars : lit "et al." = [101; 116; 32; 97; 108; 46].
Proof. reflexivity. Qed.

Lemma contains_et_al_nil : contains (lit "et al.") [] = false.
Proof. reflexivity. Qed.

(** The words do not reach across the tags around the first author. *)
Lemma contains_et_al_bold a r :
  contains (lit "et al.") (bold a ++ r)
  = contains (lit "et al.") a || contains (lit "et al.") r.
Proof.
  rewrite et_al_chars. unfold bold.
  change (lit "<b>") with [60; 98; 62].
  change (lit "</b>") with [60; 47; 98; 62].
  change (([60; 98; 62] ++ a ++ [60; 47; 98; 62]) ++ r)
    with (60 :: 98 :: 62 :: ((a ++ [60; 47; 98; 62]) ++ r)).
  rewrite <- app_assoc.
  change ([60; 47; 98; 62] ++ r) with (60 :: 47 :: 98 :: 62 :: r).
  rewrite !contains_cons_other by reflexivity.
  rewrite contains_app_char by (reflexivity || discriminate).
  rewrite !contains_cons_other by reflexivity.
  reflexivity.
Qed.

(** The words do not reach across the separator of two names. *)
Lemma contains_et_al_sep x r :
  contains (lit "et al.") (x ++ lit ", " ++ r)
  = contains (lit "et al.") x || contains (lit "et al.") r.
Proof.
  rewrite et_al_chars.
  change (lit ", " ++ r) with (44 :: 32 :: r).
  rewrite contains_app_char by (reflexivity || discriminate).
  rewrite contains_cons_other by reflexivity.
  reflexivity.
Qed.
End author_cells.

(** C2, as amended.  In the first-author table, a list of at most three
    authors is shown in full, the names joined by commas and the first one in
    bold, with nothing appended: the cell holds the words et al. exactly when
    a name holds them.  A longer list is shown as its first three names, the
    first one in bold, followed by et al. *)
Theorem first_author_cell (a : list N) (rest : list (list N)) :
  let authors := a :: rest in
  let cell := Bib.authors_html true authors in
  ((length authors <= 3)%nat ->
     cell = join (lit ", ") (Bib.bold a :: rest)
     /\ contains (lit "et al.") cell
        = existsb (contains (lit "et al.")) authors)
  /\ ((3 < length authors)%nat ->
     cell = join (lit ", ") (Bib.bold a :: take 2 rest) ++ lit ", et al.").
Proof.
  intros authors cell. subst authors cell. split.
  - intros Hlen.
    destruct rest as [|b [|c [|d rest]]]; [| | |simpl in Hlen; lia].
    + split; [reflexivity|].
      change (Bib.authors_html true [a]) with (Bib.bold a).
      rewrite <- (app_nil_r (Bib.bold a)), contains_et_al_bold.
      rewrite contains_et_al_nil. reflexivity.
    + split; [reflexivity|].
      change (Bib.authors_html true [a; b]) with (Bib.bold a ++ lit ", " ++ b).
      rewrite contains_et_al_bold.
      rewrite <- (app_nil_l (lit ", " ++ b)), contains_et_al_sep.
      rewrite contains_et_al_nil. simpl. rewrite orb_false_r. reflexivity.
    + split; [reflexivity|].
      change (Bib.authors_html true [a; b; c])
        with (Bib.bold a ++ lit ", " ++ b ++ lit ", " ++ c).
      rewrite contains_et_al_bold.
      rewrite <- (app_nil_l (lit ", " ++ b ++ lit ", " ++ c)).
      rewrite contains_et_al_sep, contains_et_al_sep.
      rewrite contains_et_al_nil. simpl. rewrite orb_false_r. reflexivity.
  - intros Hlen.
    destruct rest as [|b [|c [|d rest]]]; simpl in Hlen; try lia.
    reflexivity.
Qed.

(** Examples for C2: three authors, and four. *)
Lemma first_author_cell_witness :
  Bib.authors_html true [lit "A"; lit "B"; lit "C"] = lit "<b>A</b>, B, C"
  /\ Bib.authors_html true [lit "A"; lit "B"; lit "C"; lit "D"]
     = lit "<b>A</b>, B, C, et al.".
Proof.
  split.
  - apply (first_author_cell (lit "A") [lit "B"; lit "C"]). simpl. lia.
  - apply (first_author_cell (lit "A") [lit "B"; lit "C"; lit "D"]).
    simpl. lia.
Defined.

(** C2, as the specification states it, fails: a list of two authors whose
    second name is the braced words et al. is rendered with these words. *)
Lemma no_et_al_up_to_three_fails :
  Bib.authors_list (entry_of [] authors_with_et_al)
  = [lit "Smith, J."; lit "et al."]
  /\ Bib.authors_html true (Bib.authors_list (entry_of [] authors_with_et_al))
     = lit "<b>Smith, J.</b>, et al."
  /\ ~ no_et_al_up_to_three
         (Bib.authors_list (entry_of [] authors_with_et_al)).
Proof.
  split; [vm_compute; reflexivity|].
  split; [vm_compute; reflexivity|].
  intros H. unfold no_et_al_up_to_three in H.
  assert (Hc : contains (lit "et al.")
                 (Bib.authors_html true
                    (Bib.authors_list (entry_of [] authors_with_et_al)))
               = true) by (vm_compute; reflexivity).
  rewrite H in Hc; [discriminate| |].
  - vm_compute. discriminate.
  - vm_compute. lia.
Qed.

(** C3, as amended.  A DOI field that is present and not empty decides the
    target of the title's link, whatever the URL field says; when the DOI
    field is missing or empty the target is the URL field, and [#] when there
    is no URL field. *)
Theorem link_target (entry : Bib.Entry) :
  (forall doi,
     Bib.fields entry !! lit "doi" = Some doi -> doi <> [] ->
     Bib.url_of entry = lit "https://doi.org/" ++ doi)
  /\ (Bib.fields entry !! lit "doi" = None
      \/ Bib.fields entry !! lit "doi" = Some [] ->
      (forall url, Bib.fields entry !! lit "url" = Some url ->
                   Bib.url_of entry = url)
      /\ (Bib.fields entry !! lit "url" = None -> Bib.url_of entry = lit "#")).
Proof.
  unfold Bib.url_of, Bib.get. split.
  - intros doi -> Hdoi. destruct doi; [congruence|reflexivity].
  - intros [-> | ->]; simpl; split; intros; simplify_option_eq; reflexivity.
Qed.

(** Examples for C3: a DOI beside a URL, and an empty DOI beside a URL. *)
Lemma link_target_witness :
  Bib.url_of entry_2020 = lit "https://doi.org/10.1000/x"
  /\ Bib.url_of entry_empty_doi = lit "http://example.org/paper".
Proof.
  split.
  - apply (proj1 (link_target entry_2020) (lit "10.1000/x"));
      [vm_compute; reflexivity|discriminate].
  - apply (proj2 (link_target entry_empty_doi));
      [right|]; vm_compute; reflexivity.
Defined.

(** C3, as the specification states it, fails: the DOI field of this entry is
    present and empty, and the link goes to the URL field. *)
Lemma doi_field_decides_fails :
  Bib.fields entry_empty_doi !! lit "doi" = Some []
  /\ Bib.url_of entry_empty_doi = lit "http://example.org/paper"
  /\ ~ doi_field_decides entry_empty_doi.
Proof.
  assert (Hdoi : Bib.fields entry_empty_doi !! lit "doi" = Some [])
    by (vm_compute; reflexivity).
  split; [exact Hdoi|]. split; [vm_compute; reflexivity|].
  intros H. specialize (H [] Hdoi). vm_compute in H. discriminate.
Qed.

Section journals.
Import Bib.

Lemma fold_insert_lookup_None (items : list (list N * list N))
  (m : gmap (list N) (list N)) (k : list N) :
  fold_left (fun m kv => <[kv.1 := kv.2]> m) items m !! k = None
  <-> m !! k = None /\ k ∉ items.*1.
Proof.
  revert m. induction items as [|[k' v] items IH]; intros m; simpl.
  - rewrite elem_of_nil. tauto.
  - rewrite IH, elem_of_cons. destruct (decide (k' = k)) as [->|Hne].
    + rewrite lookup_insert_eq. split; [intros [? _]; discriminate|].
      intros [_ H]. exfalso. apply H. left. reflexivity.
    + rewrite lookup_insert_ne by assumption. split.
      * intros [? ?]. split; [assumption|].
        intros [?|?]; simpl in *; [congruence|contradiction].
      * intros [? H]. split; [assumption|].
        intros ?. apply H. right. assumption.
Qed.

(** A key is missing from a [dict] display exactly when no item has it. *)
Lemma dict_of_items_None items k :
  dict_of_items items !! k = None <-> k ∉ items.*1.
Proof.
  unfold dict_of_items. rewrite fold_insert_lookup_None, lookup_empty. tauto.
Qed.

(** The last item of a [dict] display wins. *)
Lemma dict_of_items_last items k v :
  dict_of_items (items ++ [(k, v)]) !! k = Some v.
Proof.
  unfold dict_of_items. rewrite fold_left_app. simpl.
  apply lookup_insert_eq.
Qed.

Lemma join_cons sep p l :
  join sep (p :: l)
  = match l with [] => p | _ :: _ => p ++ sep ++ join sep l end.
Proof. destruct l; reflexivity. Qed.

(** Joining the parts that [filter] keeps is the join that leaves out the
    empty parts. *)
Lemma join_filter_nonempty sep parts :
  join sep (List.filter nonempty parts) = join_omitting_empty sep parts.
Proof.
  induction parts as [|p parts IH]; [reflexivity|].
  cbn [List.filter join_omitting_empty]. rewrite <- IH.
  destruct p as [|c p]; cbn [nonempty]; [reflexivity|].
  rewrite join_cons.
  destruct (List.filter nonempty parts) as [|q l] eqn:Hf; [reflexivity|].
  assert (Hq : nonempty q = true).
  { assert (In q (List.filter nonempty parts)) as Hin
      by (rewrite Hf; left; reflexivity).
    apply filter_In in Hin. tauto. }
  rewrite join_cons.
  destruct q as [|d q]; [discriminate|]. destruct l; reflexivity.
Qed.
End journals.

(** C4.  [normalize_journal] turns the macro [\apj] into Astrophysical
    Journal; the macro [\aap], which the table defines twice, first as A&A,
    into its second definition; and it returns a journal that, once trimmed,
    is no key of the table as the trimmed text. *)
Theorem journal_normalization :
  Bib.normalize_journal (lit "\apj") = lit "Astrophysical Journal"
  /\ (lit "\aap", lit "A&A") ∈ Bib.JOURNAL_MAP_items
  /\ Bib.normalize_journal (lit "\aap") = lit "Astronomy & Astrophysics"
  /\ (forall journal,
        strip journal ∉ Bib.JOURNAL_MAP_items.*1 ->
        Bib.normalize_journal journal = strip journal).
Proof.
  split; [vm_compute; reflexivity|].
  split; [unfold Bib.JOURNAL_MAP_items; do 9 apply list_elem_of_further;
          apply list_elem_of_here|].
  split; [vm_compute; reflexivity|].
  intros journal H. unfold Bib.normalize_journal, Bib.get, Bib.JOURNAL_MAP.
  apply dict_of_items_None in H. rewrite H. reflexivity.
Qed.

(** An example for C4: a journal the table does not hold is trimmed. *)
Lemma journal_normalization_witness :
  Bib.normalize_journal (lit " Planetary Science ") = lit "Planetary Science".
Proof.
  apply (proj2 (proj2 (proj2 journal_normalization))).
  apply dict_of_items_None. vm_compute. reflexivity.
Defined.

(** C5.  The journal cell of an entry rendered under the year [year] is the
    join, with a comma and a space, of the normalized journal, the volume, the
    pages and the year, in this order, the empty ones left out.  The year is
    never empty, so the cell ends with it. *)
Theorem journal_cell (year : Z) (entry : Bib.Entry) :
  let field name := Bib.get (Bib.fields entry) name [] in
  Bib.journal_info year entry
  = join_omitting_empty (lit ", ")
      [Bib.normalize_journal (field (lit "journal")); field (lit "volume");
       field (lit "pages"); str_of_int year]
  /\ str_of_int year <> []
  /\ exists before, Bib.journal_info year entry = before ++ str_of_int year.
Proof.
  intros field. split; [apply join_filter_nonempty|].
  pose proof (str_of_int_nonempty year) as Hy.
  split; [apply nonempty_true, Hy|].
  unfold Bib.journal_info. fold (field (lit "journal")).
  fold (field (lit "volume")). fold (field (lit "pages")).
  generalize (Bib.normalize_journal (field (lit "journal"))) as j.
  generalize (field (lit "volume")) as v. generalize (field (lit "pages")) as p.
  intros p v j. cbn [List.filter]. rewrite Hy.
  destruct p, v, j; cbn [nonempty]; rewrite ?join_cons;
    try (exists []; reflexivity);
    eexists; rewrite ?app_assoc; reflexivity.
Qed.

(** ** The presentation converter *)

Section presentation_log.
Import Pres.

Lemma nonempty_dict_true (d : gmap (list N) (list N)) :
  nonempty_dict d = true <-> d <> ∅.
Proof. unfold nonempty_dict. apply bool_decide_eq_true. Qed.

Lemma nonempty_dict_false (d : gmap (list N) (list N)) :
  nonempty_dict d = false <-> d = ∅.
Proof.
  unfold nonempty_dict. rewrite bool_decide_eq_false.
  destruct (decide (d = ∅)); tauto.
Qed.

Lemma record_of_block_snoc block line :
  record_of_block (block ++ [line]) = add_field (record_of_block block) line.
Proof. unfold record_of_block. rewrite fold_left_app. reflexivity. Qed.

(** A turn of the loop on a line that is not blank adds the field of the
    line to the record of the block. *)
Lemma parse_line_field entries block line :
  nonempty (strip line) = true ->
  parse_line (entries, record_of_block block) line
  = (entries, record_of_block (block ++ [strip line])).
Proof.
  intros Hline. unfold parse_line. rewrite Hline. cbn [negb].
  rewrite record_of_block_snoc. unfold add_field, field_of_line.
  destruct (has_char 58 (strip line)); cbn [negb]; [|reflexivity].
  destruct (split_once 58 (strip line)) as [key val]. reflexivity.
Qed.

(** The loop of [parse_txt_file] and its last step, from any state whose
    record is the record of the block read so far. *)
Lemma parse_loop_spec lines entries block :
  (let '(es, cur) :=
     fold_left parse_line lines (entries, record_of_block block) in
   if nonempty_dict cur then es ++ [cur] else es)
  = entries
    ++ List.filter nonempty_dict
         (List.map record_of_block
            (split_blocks block (List.map strip lines))).
Proof.
  revert entries block.
  induction lines as [|line lines IH]; intros entries block.
  - simpl. destruct (nonempty_dict (record_of_block block));
      [reflexivity|]. rewrite app_nil_r. reflexivity.
  - cbn [fold_left List.map split_blocks].
    destruct (nonempty (strip line)) eqn:Hline.
    + rewrite parse_line_field by assumption. apply IH.
    + unfold parse_line at 2. rewrite Hline. cbn [negb List.map List.filter].
      destruct (nonempty_dict (record_of_block block)) eqn:Hcur.
      * change (∅ : gmap (list N) (list N)) with (record_of_block []).
        rewrite IH, <- app_assoc. reflexivity.
      * apply nonempty_dict_false in Hcur. rewrite Hcur.
        change (∅ : gmap (list N) (list N)) with (record_of_block []).
        apply IH.
Qed.

(** The parser computes the records of the lines. *)
Lemma parse_lines_spec lines : parse_lines lines = records_of_lines lines.
Proof.
  unfold parse_lines, records_of_lines.
  change (∅ : gmap (list N) (list N)) with (record_of_block []).
  apply (parse_loop_spec lines [] []).
Qed.

(** A line that is blank, or has no colon, leaves a state with an empty
    record as it is. *)
Lemma parse_line_idle entries line :
  nonempty (strip line) = false \/ has_char 58 (strip line) = false ->
  parse_line (entries, ∅) line = (entries, ∅).
Proof.
  intros H. unfold parse_line.
  destruct (nonempty (strip line)); cbn [negb].
  - destruct H as [H|H]; [discriminate|]. rewrite H. reflexivity.
  - reflexivity.
Qed.

Lemma parse_idle_lines entries lines :
  Forall (fun line => nonempty (strip line) = false
                      \/ has_char 58 (strip line) = false) lines ->
  fold_left parse_line lines (entries, ∅) = (entries, ∅).
Proof.
  induction 1 as [|line lines Hline _ IH]; [reflexivity|].
  cbn [fold_left]. rewrite parse_line_idle by assumption. exact IH.
Qed.

(** After a blank line the record of the loop is empty. *)
Lemma parse_line_blank st line :
  nonempty (strip line) = false -> (parse_line st line).2 = ∅.
Proof.
  intros H. destruct st as [entries current]. unfold parse_line.
  rewrite H. cbn [negb].
  destruct (nonempty_dict current) eqn:Hc; [reflexivity|].
  apply nonempty_dict_false in Hc. exact Hc.
Qed.
End presentation_log.

(** C10.  Every record of the parser has a field.  Lines that are all blank
    or without a colon give no record; and such lines, put behind a blank
    line anywhere in a file, change nothing of what is parsed. *)
Theorem records_have_fields (text : list N) :
  Forall (fun record => record <> ∅) (Pres.parse_txt_file text)
  /\ (forall lines,
        Forall (fun line => nonempty (strip line) = false
                            \/ has_char 58 (strip line) = false) lines ->
        Pres.parse_lines lines = [])
  /\ (forall before blank idle after,
        nonempty (strip blank) = false ->
        Forall (fun line => nonempty (strip line) = false
                            \/ has_char 58 (strip line) = false) idle ->
        Pres.parse_lines (before ++ blank :: idle ++ after)
        = Pres.parse_lines (before ++ blank :: after)).
Proof.
  split; [|split].
  - unfold Pres.parse_txt_file. rewrite parse_lines_spec.
    unfold records_of_lines. apply List.Forall_forall. intros record Hin.
    apply filter_In in Hin as [_ Hin]. apply nonempty_dict_true, Hin.
  - intros lines Hlines. unfold Pres.parse_lines.
    rewrite parse_idle_lines by assumption. reflexivity.
  - intros before blank idle after Hblank Hidle. unfold Pres.parse_lines.
    rewrite !fold_left_app. cbn [fold_left].
    pose proof (parse_line_blank
                  (fold_left Pres.parse_line before ([], ∅)) blank Hblank) as H.
    destruct (Pres.parse_line (fold_left Pres.parse_line before ([], ∅)) blank)
      as [entries current].
    simpl in H. subst current.
    rewrite fold_left_app, parse_idle_lines by assumption. reflexivity.
Qed.

(** An example for C10: blank lines and a line without a colon between two
    records give no record of their own. *)
Lemma records_have_fields_witness :
  Pres.parse_lines
    [lit "Title: A"; []; lit "no colon here"; lit "  "; lit "Title: B"]
  = Pres.parse_lines [lit "Title: A"; []; lit "Title: B"]
  /\ length (Pres.parse_lines [lit "Title: A"; []; lit "Title: B"]) = 2%nat.
Proof.
  split; [|vm_compute; reflexivity].
  apply (proj2 (proj2 (records_have_fields []))
           [lit "Title: A"] [] [lit "no colon here"; lit "  "]
           [lit "Title: B"]).
  - reflexivity.
  - constructor; [right; reflexivity|].
    constructor; [left; reflexivity|]. constructor.
Defined.

Section trimming.
Lemma drop_while_snoc p x c :
  p c = true ->
  drop_while p (x ++ [c])
  = if forallb p x then [] else drop_while p x ++ [c].
Proof.
  intros Hc. induction x as [|a x IH]; simpl.
  - rewrite Hc. reflexivity.
  - destruct (p a); simpl; [exact IH|reflexivity].
Qed.

Lemma drop_while_all p x : forallb p x = true -> drop_while p x = [].
Proof.
  induction x as [|a x IH]; simpl; [reflexivity|].
  destruct (p a); simpl; [exact IH|discriminate].
Qed.

(** Trimming forgets a whitespace character at the end: the line feed that
    ends a line of a file, for one. *)
Lemma strip_snoc_space x c : is_space c = true -> strip (x ++ [c]) = strip x.
Proof.
  intros Hc. unfold strip, rstrip, lstrip.
  rewrite drop_while_snoc by assumption.
  destruct (forallb is_space x) eqn:Hx.
  - rewrite (drop_while_all _ _ Hx). reflexivity.
  - rewrite rev_app_distr. simpl. rewrite Hc. reflexivity.
Qed.

Lemma has_char_app c x y : has_char c (x ++ y) = has_char c x || has_char c y.
Proof. apply existsb_app. Qed.

Lemma has_char_rev c x : has_char c (rev x) = has_char c x.
Proof.
  induction x as [|a x IH]; [reflexivity|].
  simpl. rewrite has_char_app, IH. simpl.
  rewrite orb_false_r. apply orb_comm.
Qed.

Lemma has_char_drop_while c p x :
  p c = false -> has_char c (drop_while p x) = has_char c x.
Proof.
  intros Hc. induction x as [|a x IH]; [reflexivity|].
  simpl. destruct (p a) eqn:Ha; [|reflexivity].
  rewrite IH. destruct (N.eqb_spec c a) as [->|]; [congruence|reflexivity].
Qed.

(** Trimming keeps every character that is no whitespace. *)
Lemma has_char_strip c x :
  is_space c = false -> has_char c (strip x) = has_char c x.
Proof.
  intros Hc. unfold strip, rstrip, lstrip.
  rewrite has_char_rev, has_char_drop_while by assumption.
  rewrite has_char_rev. apply has_char_drop_while. assumption.
Qed.

Lemma has_char_nonempty c x : has_char c x = true -> nonempty x = true.
Proof. destruct x; [discriminate|reflexivity]. Qed.

(** [split_once] cuts a text at its first separator. *)
Lemma split_once_spec sep x :
  has_char sep x = true ->
  x = (split_once sep x).1 ++ sep :: (split_once sep x).2
  /\ has_char sep (split_once sep x).1 = false.
Proof.
  unfold split_once. cbn [fst snd].
  induction x as [|c x IH]; [discriminate|].
  cbn [has_char existsb take_while].
  destruct (N.eqb_spec c sep) as [->|Hne]; cbn [negb].
  - intros _. split; reflexivity.
  - rewrite (proj2 (N.eqb_neq sep c)) by congruence.
    cbn [orb]. intros Hx. destruct (IH Hx) as [IH1 IH2].
    cbn [length drop app has_char existsb].
    rewrite (proj2 (N.eqb_neq sep c)) by congruence. cbn [orb].
    split; [f_equal; exact IH1|exact IH2].
Qed.
End trimming.

Section text_files.
Import Pres.

Lemma no_line_end_cons c x :
  no_line_end (c :: x) = true ->
  (c =? 10) = false /\ (c =? 13) = false /\ no_line_end x = true.
Proof.
  unfold no_line_end. cbn [has_char existsb].
  rewrite (N.eqb_sym 10 c), (N.eqb_sym 13 c).
  destruct (c =? 10), (c =? 13); simpl; intros H;
    try discriminate H; auto.
  rewrite andb_false_r in H. discriminate H.
Qed.

(** Text without a line end is one line, or none when it is empty. *)
Lemma lines_from_plain cur x :
  no_line_end x = true ->
  lines_from cur false x = if nonempty (cur ++ x) then [cur ++ x] else [].
Proof.
  revert cur. induction x as [|c x IH]; intros cur Hx.
  - rewrite app_nil_r. reflexivity.
  - apply no_line_end_cons in Hx as (H10 & H13 & Hx).
    cbn [lines_from]. rewrite H10, H13, IH by assumption.
    rewrite <- app_assoc. reflexivity.
Qed.

(** Text without a line end, then a line feed: a line. *)
Lemma lines_from_line cur x rest :
  no_line_end x = true ->
  lines_from cur false (x ++ 10 :: rest)
  = (cur ++ x ++ [10]) :: lines_from [] false rest.
Proof.
  revert cur. induction x as [|c x IH]; intros cur Hx.
  - reflexivity.
  - apply no_line_end_cons in Hx as (H10 & H13 & Hx).
    cbn [lines_from app]. rewrite H10, H13, IH by assumption.
    rewrite <- app_assoc. reflexivity.
Qed.

(** The lines of a block written without a line end after its last line. *)
Lemma file_lines_block block last :
  Forall (fun line => no_line_end line = true) (block ++ [last]) ->
  last <> [] ->
  file_lines (join Bib.nl (block ++ [last]))
  = List.map (fun line => line ++ [10]) block ++ [last].
Proof.
  unfold file_lines. intros Hall Hlast.
  induction block as [|line block IH].
  - simpl. apply Forall_inv in Hall. rewrite lines_from_plain by assumption.
    destruct last; [congruence|reflexivity].
  - cbn [app] in Hall. pose proof (Forall_inv Hall) as Hline.
    apply Forall_inv_tail in Hall.
    change ((line :: block) ++ [last]) with (line :: (block ++ [last])).
    rewrite join_cons.
    destruct (block ++ [last]) as [|l0 ls] eqn:Hb;
      [destruct block; discriminate|].
    change (Bib.nl ++ join Bib.nl (l0 :: ls))
      with (10 :: join Bib.nl (l0 :: ls)).
    rewrite lines_from_line by assumption.
    rewrite IH by assumption. reflexivity.
Qed.

(** Lines that are not blank are one block. *)
Lemma split_blocks_one cur lines :
  Forall (fun line => nonempty line = true) lines ->
  split_blocks cur lines = [cur ++ lines].
Proof.
  intros H. revert cur. induction H as [|line lines Hline _ IH]; intros cur.
  - rewrite app_nil_r. reflexivity.
  - cbn [split_blocks]. rewrite Hline, IH, <- app_assoc. reflexivity.
Qed.

(** The record of a block whose last line has a colon has a field. *)
Lemma record_of_block_nonempty block last :
  has_char 58 last = true -> record_of_block (block ++ [last]) <> ∅.
Proof.
  intros Hlast. rewrite record_of_block_snoc.
  unfold add_field, field_of_line. rewrite Hlast.
  apply insert_non_empty.
Qed.
End text_files.

Section one_block.
Import Pres.

Lemma strip_file_lines block last :
  List.map strip (List.map (fun line => line ++ [10]) block ++ [last])
  = List.map strip (block ++ [last]).
Proof.
  rewrite !List.map_app, List.map_map. f_equal.
  apply List.map_ext. intros line. apply strip_snoc_space. reflexivity.
Qed.

(** A block of lines with a colon each, and no line end after the last
    one, is parsed into one record. *)
Lemma parse_one_block block last :
  Forall (fun line => no_line_end line = true /\ has_char 58 line = true)
    (block ++ [last]) ->
  parse_txt_file (join Bib.nl (block ++ [last]))
  = [record_of_block (List.map strip (block ++ [last]))].
Proof.
  intros Hall.
  assert (Hends : Forall (fun line => no_line_end line = true)
                    (block ++ [last]))
    by (eapply Forall_impl; [exact Hall|]; simpl; tauto).
  assert (Hcolons : Forall (fun line => has_char 58 line = true)
                      (block ++ [last]))
    by (eapply Forall_impl; [exact Hall|]; simpl; tauto).
  assert (Hlast : has_char 58 last = true).
  { apply Forall_app in Hcolons as [_ Hl]. apply Forall_inv in Hl. exact Hl. }
  unfold parse_txt_file.
  rewrite file_lines_block;
    [|assumption|destruct last; [discriminate|congruence]].
  rewrite parse_lines_spec. unfold records_of_lines.
  rewrite strip_file_lines, split_blocks_one.
  - cbn [app List.map List.filter].
    rewrite (proj2 (nonempty_dict_true _)); [reflexivity|].
    rewrite List.map_app. apply record_of_block_nonempty.
    rewrite has_char_strip by reflexivity. exact Hlast.
  - apply Forall_fmap. eapply Forall_impl; [exact Hcolons|].
    intros line Hline. simpl. apply (has_char_nonempty 58).
    rewrite has_char_strip by reflexivity. exact Hline.
Qed.
End one_block.

(** C6.  The parser computes the records of the specification from the lines
    of the file: a blank line ends a record, a line with a colon gives the
    field made of the trimmed text before its first colon and the trimmed
    text after it, and a line without a colon is passed over.  A record that
    no blank line follows is kept: the text of one block of lines with a
    colon each, with no line end after the last one, gives exactly one
    record. *)
Theorem parser_records (text : list N) :
  Pres.parse_txt_file text = records_of_lines (file_lines text)
  /\ (forall entries current line,
        nonempty (strip line) = true ->
        has_char 58 (strip line) = true ->
        let cut := split_once 58 (strip line) in
        strip line = cut.1 ++ 58 :: cut.2
        /\ has_char 58 cut.1 = false
        /\ Pres.parse_line (entries, current) line
           = (entries, <[strip cut.1 := strip cut.2]> current))
  /\ (forall entries current line,
        nonempty (strip line) = true ->
        has_char 58 (strip line) = false ->
        Pres.parse_line (entries, current) line = (entries, current))
  /\ (forall entries current line,
        nonempty (strip line) = false -> current <> ∅ ->
        Pres.parse_line (entries, current) line = (entries ++ [current], ∅))
  /\ (forall block last,
        Forall (fun line => no_line_end line = true
                            /\ has_char 58 line = true) (block ++ [last]) ->
        Pres.parse_txt_file (join Bib.nl (block ++ [last]))
        = [record_of_block (List.map strip (block ++ [last]))]).
Proof.
  split; [apply parse_lines_spec|].
  split; [|split; [|split]].
  - intros entries current line Hline Hcolon cut.
    destruct (split_once_spec 58 (strip line) Hcolon) as [Hcut Hkey].
    split; [exact Hcut|]. split; [exact Hkey|].
    unfold Pres.parse_line. rewrite Hline, Hcolon. cbn [negb].
    subst cut. destruct (split_once 58 (strip line)). reflexivity.
  - intros entries current line Hline Hcolon.
    unfold Pres.parse_line. rewrite Hline, Hcolon. reflexivity.
  - intros entries current line Hline Hcur.
    unfold Pres.parse_line. rewrite Hline. cbn [negb].
    rewrite (proj2 (nonempty_dict_true current) Hcur). reflexivity.
  - apply parse_one_block.
Qed.

(** An example for C6: the log of the specification, without a line end at
    its end, gives one record. *)
Lemma parser_records_witness :
  length (Pres.parse_txt_file sample_log) = 1%nat
  /\ Pres.parse_txt_file sample_log
     = [record_of_block
          [lit "Presenters: Jin Beniyama"; lit "Title: Light curves";
           lit "Dates: 2023-04-10; 2023-04-12"]].
Proof.
  assert (H : Pres.parse_txt_file sample_log
              = [record_of_block
                   (List.map strip
                      ([lit "Presenters: Jin Beniyama";
                        lit "Title: Light curves"]
                       ++ [lit "Dates: 2023-04-10; 2023-04-12"]))]).
  { apply (proj2 (proj2 (proj2 (proj2 (parser_records []))))
             [lit "Presenters: Jin Beniyama"; lit "Title: Light curves"]
             (lit "Dates: 2023-04-10; 2023-04-12")).
    repeat constructor. }
  split; [rewrite H; reflexivity|exact H].
Defined.

Section yearly_counts.
Import Pres.


(** The guard on an empty [Dates] field changes nothing: an empty start
    date is no year. *)
Lemma count_step_spec counts e :
  count_step counts e
  = match start_year e with
    | Some year => <[year := S (default O (counts !! year))]> counts
    | None => counts
    end.
Proof.
  unfold count_step, start_year.
  destruct (Bib.get e (lit "Dates") []) as [|c dates]; reflexivity.
Qed.

Lemma count_loop_spec entries counts (y : Z) :
  default O (fold_left count_step entries counts !! y)
  = (default O (counts !! y)
     + length (filter (fun e => start_year e = Some y) entries))%nat.
Proof.
  revert counts. induction entries as [|e entries IH]; intros counts.
  - simpl. lia.
  - cbn [fold_left]. rewrite IH, count_step_spec, filter_cons.
    destruct (start_year e) as [year|] eqn:He.
    + destruct (decide (year = y)) as [->|Hne].
      * rewrite lookup_insert_eq. rewrite decide_True by reflexivity.
        simpl. lia.
      * rewrite lookup_insert_ne by assumption.
        rewrite decide_False by congruence. reflexivity.
    + rewrite decide_False by congruence. reflexivity.
Qed.

End yearly_counts.



Section pages.
(** The presentation page: the fixed text, the date stamp, the image of
    the chart with the formatted value of [--fig] as its source, the two
    tables, and the fixed text. *)
Lemma page_shape now fig domestic international :
  Pres.page now fig domestic international
  = Some (page_top ++ now ++ lit " " ++ Bib.nl ++ lit "  "
          ++ img_tag (str_of_value (Pres.fig_value fig))
          ++ Bib.nl ++ Bib.nl
          ++ tables_of domestic international ++ page_bottom).
Proof.
  unfold Pres.page. fold (tables_of domestic international).
  generalize (tables_of domestic international) as tables. intros tables.
  destruct fig as [path|]; unfold img_tag; rewrite <- ?app_assoc;
    vm_compute; reflexivity.
Qed.

Lemma page_top_end :
  exists before,
    page_top
    = before ++ lit "  These are list of my presentations. Last updated on ".
Proof.
  exists (take (length page_top - 54) page_top). vm_compute. reflexivity.
Qed.
End pages.

(** ** More about the bibliography converter *)

Section replacing.

(** Replacing one character by nothing filters it out. *)
Lemma replace_char_nil c x :
  replace [c] [] x = List.filter (fun a => negb (a =? c)) x.
Proof.
  unfold replace. induction x as [|a x IH]; [reflexivity|].
  cbn [replace_from startswith List.filter length Nat.pred].
  rewrite andb_true_r, (N.eqb_sym c a).
  destruct (a =? c); cbn [negb app]; rewrite IH; reflexivity.
Qed.

Lemma has_char_filter_out c (p : N -> bool) x :
  p c = false -> has_char c (List.filter p x) = false.
Proof.
  intros Hc. induction x as [|a x IH]; [reflexivity|].
  cbn [List.filter]. destruct (p a) eqn:Ha; [|exact IH].
  cbn [has_char existsb]. fold (has_char c (List.filter p x)). rewrite IH.
  destruct (N.eqb_spec c a) as [->|]; [congruence|reflexivity].
Qed.

Lemma has_char_filter c (p : N -> bool) x :
  has_char c x = false -> has_char c (List.filter p x) = false.
Proof.
  induction x as [|a x IH]; [reflexivity|].
  cbn [has_char existsb List.filter]. intros H.
  apply orb_false_iff in H as [Ha Hx].
  destruct (p a); [|exact (IH Hx)].
  cbn [has_char existsb]. rewrite Ha. exact (IH Hx).
Qed.

Lemma startswith_head h o x :
  has_char h x = false -> startswith (h :: o) x = false.
Proof.
  destruct x as [|a x]; [reflexivity|].
  cbn [has_char existsb startswith]. intros H.
  apply orb_false_iff in H as [Ha _]. rewrite Ha. reflexivity.
Qed.

(** A text that does not hold the first character of [old] has no
    occurrence of it to replace. *)
Lemma replace_absent h o new x :
  has_char h x = false -> replace (h :: o) new x = x.
Proof.
  unfold replace. induction x as [|a x IH]; [reflexivity|].
  intros H. cbn [replace_from]. rewrite (startswith_head h o (a :: x) H).
  cbn [has_char existsb] in H. apply orb_false_iff in H as [_ Hx].
  rewrite (IH Hx). reflexivity.
Qed.

Lemma startswith_length p x :
  startswith p x = true -> (length p <= length x)%nat.
Proof.
  revert x. induction p as [|a p IH]; intros x H; simpl; [lia|].
  destruct x as [|b x]; [discriminate|]. simpl in H.
  apply andb_true_iff in H as [_ H]. specialize (IH x H). simpl. lia.
Qed.

Lemma length_replace_from old new skip x :
  (length new <= length old)%nat -> (skip <= length x)%nat ->
  (length (replace_from old new skip x) + skip <= length x)%nat.
Proof.
  intros Hnew. revert skip. induction x as [|a x IH]; intros skip Hskip.
  - simpl in *. lia.
  - cbn [replace_from]. destruct skip as [|k].
    + destruct (startswith old (a :: x)) eqn:Hs.
      * apply startswith_length in Hs. cbn [length] in *.
        rewrite length_app.
        assert (Hk : (Nat.pred (length old) <= length x)%nat) by lia.
        specialize (IH _ Hk). lia.
      * cbn [length]. specialize (IH O ltac:(lia)). lia.
    + cbn [length] in *. specialize (IH k ltac:(lia)). lia.
Qed.

(** Replacing by a text that is not longer does not make a text longer. *)
Lemma length_replace old new x :
  old <> [] -> (length new <= length old)%nat ->
  (length (replace old new x) <= length x)%nat.
Proof.
  intros Hold Hnew. destruct old as [|h o]; [congruence|].
  unfold replace.
  pose proof (length_replace_from (h :: o) new O x Hnew ltac:(lia)). lia.
Qed.

Lemma length_filter_le (p : N -> bool) x :
  (length (List.filter p x) <= length x)%nat.
Proof.
  induction x as [|a x IH]; simpl; [lia|]. destruct (p a); simpl; lia.
Qed.

End replacing.

Section accents.
Import Bib.

(** What [latex_to_unicode] does after the accents: it drops the braces. *)
Lemma latex_to_unicode_unfold text :
  latex_to_unicode text
  = List.filter (fun a => negb (a =? 125))
      (List.filter (fun a => negb (a =? 123))
         (fold_left (fun text kv => replace kv.1 kv.2 text)
            LATEX_ACCENTS text)).
Proof.
  unfold latex_to_unicode.
  change (lit "}") with [125]. change (lit "{") with [123].
  rewrite !replace_char_nil. reflexivity.
Qed.

Lemma accents_absent (table : list (list N * list N)) text :
  Forall (fun kv => exists o, kv.1 = 92 :: o) table ->
  has_char 92 text = false ->
  fold_left (fun text kv => replace kv.1 kv.2 text) table text = text.
Proof.
  intros Htable Htext. induction Htable as [|[k v] table [o Hk] _ IH];
    [reflexivity|].
  cbn [fold_left fst snd] in *. subst k.
  rewrite replace_absent by assumption. exact IH.
Qed.

Lemma accents_length (table : list (list N * list N)) text :
  Forall (fun kv => kv.1 <> [] /\ (length kv.2 <= length kv.1)%nat) table ->
  (length (fold_left (fun text kv => replace kv.1 kv.2 text) table text)
   <= length text)%nat.
Proof.
  intros Htable. revert text.
  induction Htable as [|[k v] table [Hk Hv] _ IH]; intros text; [simpl; lia|].
  cbn [fold_left fst snd] in *.
  specialize (IH (replace k v text)).
  pose proof (length_replace k v text Hk Hv). lia.
Qed.

Lemma accent_keys_backslash :
  Forall (fun kv : list N * list N => exists o, kv.1 = 92 :: o) LATEX_ACCENTS.
Proof. unfold LATEX_ACCENTS. repeat constructor; eexists; reflexivity. Qed.

Lemma accent_keys_longer :
  Forall (fun kv : list N * list N =>
            kv.1 <> [] /\ (length kv.2 <= length kv.1)%nat) LATEX_ACCENTS.
Proof.
  unfold LATEX_ACCENTS. repeat constructor; simpl; (discriminate || lia).
Qed.

End accents.

(** X1.  The text [latex_to_unicode] returns holds no brace, and it is never
    longer than the text it was given. *)
Theorem latex_to_unicode_no_braces (text : list N) :
  has_char 123 (Bib.latex_to_unicode text) = false
  /\ has_char 125 (Bib.latex_to_unicode text) = false
  /\ (length (Bib.latex_to_unicode text) <= length text)%nat.
Proof.
  rewrite latex_to_unicode_unfold. split; [|split].
  - apply has_char_filter. apply has_char_filter_out. reflexivity.
  - apply has_char_filter_out. reflexivity.
  - pose proof (accents_length Bib.LATEX_ACCENTS text accent_keys_longer).
    pose proof (length_filter_le (fun a => negb (a =? 125))
                  (List.filter (fun a => negb (a =? 123))
                     (fold_left (fun text kv => replace kv.1 kv.2 text)
                        Bib.LATEX_ACCENTS text))).
    pose proof (length_filter_le (fun a => negb (a =? 123))
                  (fold_left (fun text kv => replace kv.1 kv.2 text)
                     Bib.LATEX_ACCENTS text)).
    lia.
Qed.

(** X2.  A text without a backslash has no accent to replace:
    [latex_to_unicode] only takes its braces out, and returns a text with
    neither a backslash nor a brace as it is. *)
Theorem latex_to_unicode_plain (text : list N) :
  has_char 92 text = false ->
  Bib.latex_to_unicode text
  = List.filter (fun a => negb (a =? 123) && negb (a =? 125)) text
  /\ (has_char 123 text = false -> has_char 125 text = false ->
      Bib.latex_to_unicode text = text).
Proof.
  intros Hb. rewrite latex_to_unicode_unfold.
  rewrite (accents_absent _ _ accent_keys_backslash Hb).
  assert (Hf : List.filter (fun a => negb (a =? 125))
                 (List.filter (fun a => negb (a =? 123)) text)
               = List.filter (fun a => negb (a =? 123) && negb (a =? 125))
                   text).
  { clear Hb. induction text as [|a text IH]; [reflexivity|].
    cbn [List.filter]. destruct (a =? 123); cbn [negb andb List.filter];
      [exact IH|]. destruct (a =? 125); cbn [negb]; rewrite IH; reflexivity. }
  split; [exact Hf|]. intros H1 H2. rewrite Hf. clear Hf Hb.
  induction text as [|a text IH]; [reflexivity|].
  cbn [has_char existsb] in H1, H2.
  apply orb_false_iff in H1 as [Ha1 H1]. apply orb_false_iff in H2 as [Ha2 H2].
  cbn [List.filter]. rewrite (N.eqb_sym a 123), (N.eqb_sym a 125), Ha1, Ha2.
  cbn [negb andb]. rewrite (IH H1 H2). reflexivity.
Qed.

(** An example for X2: a title with braces around a word. *)
Lemma latex_to_unicode_plain_witness :
  Bib.latex_to_unicode (lit "The {Hayabusa2} target")
  = lit "The Hayabusa2 target".
Proof.
  apply (proj1 (latex_to_unicode_plain (lit "The {Hayabusa2} target")
                  eq_refl)).
Defined.

Section trimming_twice.

Lemma drop_while_snoc_keep p x c :
  p c = false -> drop_while p (x ++ [c]) = drop_while p x ++ [c].
Proof.
  intros Hc. induction x as [|a x IH]; simpl.
  - rewrite Hc. reflexivity.
  - destruct (p a); [exact IH|reflexivity].
Qed.

(** Trimming at the right keeps a first character that is no whitespace. *)
Lemma rstrip_cons a x :
  is_space a = false -> rstrip (a :: x) = a :: rstrip x.
Proof.
  intros Ha. unfold rstrip. cbn [rev].
  rewrite drop_while_snoc_keep by assumption.
  rewrite rev_app_distr. reflexivity.
Qed.

Lemma drop_while_twice p x : drop_while p (drop_while p x) = drop_while p x.
Proof.
  induction x as [|a x IH]; [reflexivity|].
  simpl. destruct (p a) eqn:Ha; [exact IH|]. simpl. rewrite Ha. reflexivity.
Qed.

Lemma rstrip_twice x : rstrip (rstrip x) = rstrip x.
Proof.
  unfold rstrip. rewrite rev_involutive, drop_while_twice. reflexivity.
Qed.

(** A text trimmed at the left is empty or starts with a character that is
    no whitespace. *)
Lemma lstrip_head x :
  lstrip x = [] \/ exists a y, lstrip x = a :: y /\ is_space a = false.
Proof.
  unfold lstrip. induction x as [|a x IH]; [left; reflexivity|].
  simpl. destruct (is_space a) eqn:Ha; [exact IH|]. right. eauto.
Qed.

Lemma lstrip_strip x : lstrip (strip x) = strip x.
Proof.
  unfold strip. destruct (lstrip_head x) as [->|(a & y & -> & Ha)];
    [reflexivity|].
  rewrite rstrip_cons by assumption. unfold lstrip. simpl.
  rewrite Ha. reflexivity.
Qed.

(** Trimming a trimmed text changes nothing. *)
Lemma strip_twice x : strip (strip x) = strip x.
Proof.
  unfold strip at 1. rewrite lstrip_strip. unfold strip.
  apply rstrip_twice.
Qed.

End trimming_twice.

Section journal_values.
Import Bib.

Lemma fold_insert_lookup_Some (items : list (list N * list N))
  (m : gmap (list N) (list N)) (k v : list N) :
  fold_left (fun m kv => <[kv.1 := kv.2]> m) items m !! k = Some v ->
  m !! k = Some v \/ (k, v) ∈ items.
Proof.
  revert m. induction items as [|[k' v'] items IH]; intros m; simpl.
  - intros H. left. exact H.
  - intros H. apply IH in H as [H|H].
    + destruct (decide (k' = k)) as [->|Hne].
      * rewrite lookup_insert_eq in H. injection H as ->.
        right. apply list_elem_of_here.
      * rewrite lookup_insert_ne in H by assumption. left. exact H.
    + right. apply list_elem_of_further. exact H.
Qed.

(** A value the table holds is one of its items. *)
Lemma dict_of_items_Some items k v :
  dict_of_items items !! k = Some v -> (k, v) ∈ items.
Proof.
  intros H. apply fold_insert_lookup_Some in H as [H|H]; [|exact H].
  rewrite lookup_empty in H. discriminate.
Qed.

(** The full titles of the table are trimmed, and none is a macro of the
    table. *)
Lemma journal_values_fixed :
  Forall (fun kv : list N * list N => normalize_journal kv.2 = kv.2)
    JOURNAL_MAP_items.
Proof.
  apply Forall_forall. intros kv Hin.
  assert (Hb : forallb (fun kv : list N * list N =>
                          str_eqb (normalize_journal kv.2) kv.2)
                 JOURNAL_MAP_items = true) by (vm_compute; reflexivity).
  rewrite forallb_forall in Hb. apply list_elem_of_In in Hin.
  specialize (Hb kv Hin). revert Hb.
  generalize (normalize_journal kv.2) as x. generalize kv.2 as y.
  intros y x. revert y. induction x as [|a x IH]; intros [|b y]; simpl;
    try discriminate; [reflexivity|].
  intros H. apply andb_true_iff in H as [Hab H].
  apply N.eqb_eq in Hab. subst b. f_equal. apply IH, H.
Qed.

End journal_values.

(** X3.  Normalizing a journal twice is normalizing it once: the full title
    the table gives, or the trimmed text of a journal it does not hold, is
    not changed again. *)
Theorem normalize_journal_idempotent (journal : list N) :
  Bib.normalize_journal (Bib.normalize_journal journal)
  = Bib.normalize_journal journal.
Proof.
  assert (Hn : Bib.normalize_journal journal
               = default (strip journal) (Bib.JOURNAL_MAP !! strip journal))
    by reflexivity.
  rewrite Hn. clear Hn.
  destruct (Bib.JOURNAL_MAP !! strip journal) as [v|] eqn:Hv; simpl.
  - apply dict_of_items_Some in Hv.
    pose proof journal_values_fixed as Hall. rewrite Forall_forall in Hall.
    apply (Hall _ Hv).
  - unfold Bib.normalize_journal, Bib.get. rewrite strip_twice, Hv.
    reflexivity.
Qed.

Section bibliography_runs.
Import Bib.


Lemma mapM_None_elem_of {A B} (f : A -> option B) l :
  mapM f l = None <-> exists x, x ∈ l /\ f x = None.
Proof.
  rewrite mapM_None, Exists_exists. reflexivity.
Qed.

Lemma bib_to_table_rows_None parse_file bib_files b :
  bib_to_table_rows parse_file bib_files b = None
  <-> exists path, path ∈ bib_files /\ parse_file path = None.
Proof.
  unfold bib_to_table_rows. rewrite <- mapM_None_elem_of.
  destruct (mapM parse_file bib_files); simpl; split; congruence.
Qed.




(** Sorting a sorted list changes nothing. *)
Lemma sort_by_sorted_id {A} (key : A -> Z) l :
  StronglySorted (fun a b => (key a <= key b)%Z) l -> Bib.sort_by key l = l.
Proof.
  intros H. symmetry. apply sort_by_unique; [exact H|reflexivity].
Qed.

End bibliography_runs.

(** X4.  [bib_to_table_rows] fails exactly when the parser fails on one of
    the files, whatever the other files hold; and when every file is parsed,
    it returns one row for each entry of each file. *)
Theorem bib_rows_all_or_nothing
  (parse_file : list N -> option (list Bib.Entry))
  (bib_files : list (list N)) (first_author_table : bool) :
  (Bib.bib_to_table_rows parse_file bib_files first_author_table = None
   <-> exists path, path ∈ bib_files /\ parse_file path = None)
  /\ (forall pooled,
        mapM parse_file bib_files = Some pooled ->
        exists rows,
          Bib.bib_to_table_rows parse_file bib_files first_author_table
          = Some rows
          /\ length rows = list_sum (List.map length pooled)).
Proof.
  split; [apply bib_to_table_rows_None|].
  intros pooled Hp. unfold Bib.bib_to_table_rows. rewrite Hp. simpl.
  eexists. split; [reflexivity|].
  unfold Bib.rows_of. rewrite length_rows_from.
  rewrite (Permutation_length (all_entries_perm (concat pooled))).
  rewrite length_fmap. apply length_concat.
Qed.

(** An example for X4: two files, of two entries and of one. *)
Lemma bib_rows_all_or_nothing_witness :
  exists rows,
    Bib.bib_to_table_rows
      (fun path => if str_eqb path (lit "a.bib")
                   then Some [entry_2020; entry_no_year]
                   else Some [entry_2020_bis])
      [lit "a.bib"; lit "b.bib"] true = Some rows
    /\ length rows = 3%nat.
Proof.
  apply (proj2 (bib_rows_all_or_nothing
                  (fun path => if str_eqb path (lit "a.bib")
                               then Some [entry_2020; entry_no_year]
                               else Some [entry_2020_bis])
                  [lit "a.bib"; lit "b.bib"] true)
           [[entry_2020; entry_no_year]; [entry_2020_bis]]).
  reflexivity.
Defined.



(** X6.  When the years of the pooled entries already stand in ascending
    order, the sort changes nothing: the rows render the entries in the
    order of the files. *)
Theorem ordered_entries_keep_order (first_author_table : bool)
  (pooled : list Bib.Entry) :
  StronglySorted (fun a b => (Bib.year_int a <= Bib.year_int b)%Z) pooled ->
  Bib.all_entries pooled = List.map (fun e => (Bib.year_int e, e)) pooled
  /\ (forall k : nat,
        Bib.rows_of first_author_table pooled !! k
        = (fun e => Bib.row_html first_author_table (1 + Z.of_nat k)
                      (Bib.year_int e) e) <$> pooled !! k).
Proof.
  intros Hs.
  assert (Hall : Bib.all_entries pooled
                 = List.map (fun e => (Bib.year_int e, e)) pooled).
  { unfold Bib.all_entries. apply sort_by_sorted_id.
    induction Hs as [|e l Hl IH He]; [constructor|].
    cbn [List.map]. constructor; [exact IH|].
    apply Forall_forall. intros x Hx.
    apply list_elem_of_fmap in Hx as (e' & -> & Hx).
    rewrite Forall_forall in He. apply He. exact Hx. }
  split; [exact Hall|].
  intros k. unfold Bib.rows_of. rewrite lookup_rows_from, Hall.
  change (List.map (fun e => (Bib.year_int e, e)) pooled)
    with ((fun e => (Bib.year_int e, e)) <$> pooled).
  rewrite list_lookup_fmap. destruct (pooled !! k); reflexivity.
Qed.

(** An example for X6: two entries of 2020 and one without a year. *)
Lemma ordered_entries_keep_order_witness :
  Bib.all_entries [entry_2020; entry_2020_bis; entry_no_year]
  = [(2020%Z, entry_2020); (2020%Z, entry_2020_bis); (9999%Z, entry_no_year)].
Proof.
  apply (ordered_entries_keep_order true
           [entry_2020; entry_2020_bis; entry_no_year]).
  repeat constructor; vm_compute; discriminate.
Defined.

(** ** More about the presentation converter *)

Section log_composition.
Import Pres.

(** The records of a log only depend on its trimmed lines. *)
Lemma parse_lines_strip lines lines' :
  List.map strip lines = List.map strip lines' ->
  parse_lines lines = parse_lines lines'.
Proof.
  intros H. rewrite !parse_lines_spec. unfold records_of_lines.
  rewrite H. reflexivity.
Qed.

(** The loop started with entries already found adds to them what it would
    find on its own. *)
Lemma parse_loop_from entries lines :
  (let '(es, cur) := fold_left parse_line lines (entries, ∅) in
   if nonempty_dict cur then es ++ [cur] else es)
  = entries ++ parse_lines lines.
Proof.
  rewrite parse_lines_spec. unfold records_of_lines.
  apply (parse_loop_spec lines entries []).
Qed.

(** A blank line closes what stands before it. *)
Lemma parse_lines_blank before blank after :
  nonempty (strip blank) = false ->
  parse_lines (before ++ blank :: after)
  = parse_lines before ++ parse_lines after.
Proof.
  intros Hblank. unfold parse_lines at 1 2.
  rewrite fold_left_app. cbn [fold_left].
  destruct (fold_left parse_line before ([], ∅)) as [es cur].
  unfold parse_line at 2. rewrite Hblank. cbn [negb].
  destruct (nonempty_dict cur) eqn:Hcur.
  - apply parse_loop_from.
  - apply nonempty_dict_false in Hcur. subst cur. apply parse_loop_from.
Qed.

(** A line feed put at the end of a text adds nothing to its lines, or adds
    a blank line. *)
Lemma lines_from_final_newline x cur after_cr :
  (after_cr = true -> cur = []) ->
  List.map strip (lines_from cur after_cr (x ++ [10]))
  = List.map strip (lines_from cur after_cr x)
  \/ List.map strip (lines_from cur after_cr (x ++ [10]))
     = List.map strip (lines_from cur after_cr x) ++ [[]].
Proof.
  revert cur after_cr. induction x as [|c x IH]; intros cur after_cr Hcr.
  - change (lines_from cur after_cr ([] ++ [10]))
      with (if after_cr then [] else [cur ++ [10]]).
    cbn [lines_from].
    destruct after_cr.
    + rewrite (Hcr eq_refl). left. reflexivity.
    + destruct (nonempty cur) eqn:Hcur.
      * left. cbn [List.map]. rewrite strip_snoc_space by reflexivity.
        reflexivity.
      * destruct cur; [|discriminate]. right. reflexivity.
  - change ((c :: x) ++ [10]) with (c :: (x ++ [10])). cbn [lines_from].
    destruct (c =? 10).
    + destruct after_cr.
      * apply IH. discriminate.
      * cbn [List.map].
        destruct (IH [] false ltac:(discriminate)) as [H|H]; rewrite H;
          [left|right]; reflexivity.
    + destruct (c =? 13).
      * cbn [List.map].
        destruct (IH [] true ltac:(reflexivity)) as [H|H]; rewrite H;
          [left|right]; reflexivity.
      * apply IH. discriminate.
Qed.

End log_composition.

(** X7.  A blank line cuts a log in two: the records of the lines before it,
    followed by the records of the lines after it, are the records of the
    whole, so logs put together with a blank line between them are parsed as
    they are parsed alone. *)
Theorem parse_lines_compose (before after : list (list N)) (blank : list N) :
  nonempty (strip blank) = false ->
  Pres.parse_lines (before ++ blank :: after)
  = Pres.parse_lines before ++ Pres.parse_lines after.
Proof. apply parse_lines_blank. Qed.

(** An example for X7: two records around a line of spaces. *)
Lemma parse_lines_compose_witness :
  Pres.parse_lines ([lit "Title: A"] ++ lit "   " :: [lit "Title: B"])
  = Pres.parse_lines [lit "Title: A"] ++ Pres.parse_lines [lit "Title: B"].
Proof.
  apply (parse_lines_compose [lit "Title: A"] [lit "Title: B"] (lit "   ")).
  reflexivity.
Defined.

(** X8.  A line feed at the end of the file makes no difference to what is
    parsed, whether the file ended with a line feed before or not. *)
Theorem final_newline_ignored (text : list N) :
  Pres.parse_txt_file (text ++ [10]) = Pres.parse_txt_file text.
Proof.
  unfold Pres.parse_txt_file, file_lines.
  destruct (lines_from_final_newline text [] false ltac:(discriminate))
    as [H|H].
  - apply parse_lines_strip. exact H.
  - transitivity (Pres.parse_lines (lines_from [] false text ++ [[]])).
    + apply parse_lines_strip. rewrite H, List.map_app. reflexivity.
    + rewrite (parse_lines_blank (lines_from [] false text) [] [])
        by reflexivity.
      apply app_nil_r.
Qed.

Section trimming_around.

Lemma drop_while_app_stop p x c y :
  p c = false -> drop_while p (x ++ c :: y) = drop_while p x ++ c :: y.
Proof.
  intros Hc. induction x as [|a x IH]; simpl.
  - rewrite Hc. reflexivity.
  - destruct (p a); [exact IH|reflexivity].
Qed.

(** Trimming does not reach across a character that is no whitespace. *)
Lemma strip_around c x y :
  is_space c = false -> strip (x ++ c :: y) = lstrip x ++ c :: rstrip y.
Proof.
  intros Hc. unfold strip, lstrip at 1.
  rewrite drop_while_app_stop by assumption. fold (lstrip x).
  unfold rstrip. rewrite rev_app_distr. cbn [rev].
  rewrite <- app_assoc. cbn [app].
  rewrite drop_while_app_stop by assumption.
  rewrite rev_app_distr. cbn [rev]. rewrite rev_involutive, <- app_assoc.
  reflexivity.
Qed.

Lemma forallb_rev_eq (p : N -> bool) x : forallb p (rev x) = forallb p x.
Proof.
  induction x as [|a x IH]; [reflexivity|].
  cbn [rev forallb]. rewrite forallb_app, IH. cbn [forallb].
  rewrite andb_true_r. apply andb_comm.
Qed.

Lemma rstrip_cons_space a x :
  is_space a = true ->
  rstrip (a :: x) = if forallb is_space x then [] else a :: rstrip x.
Proof.
  intros Ha. unfold rstrip. cbn [rev].
  rewrite drop_while_snoc by assumption. rewrite forallb_rev_eq.
  destruct (forallb is_space x); [reflexivity|].
  rewrite rev_app_distr. reflexivity.
Qed.

Lemma rstrip_all_space x : forallb is_space x = true -> rstrip x = [].
Proof.
  intros H. unfold rstrip. rewrite drop_while_all; [reflexivity|].
  rewrite forallb_rev_eq. exact H.
Qed.

(** Trimming at the left and at the right can be done in either order. *)
Lemma lstrip_rstrip x : lstrip (rstrip x) = rstrip (lstrip x).
Proof.
  induction x as [|a x IH]; [reflexivity|].
  destruct (is_space a) eqn:Ha.
  - rewrite rstrip_cons_space by assumption.
    unfold lstrip at 2. cbn [drop_while]. rewrite Ha. fold (lstrip x).
    destruct (forallb is_space x) eqn:Hx.
    + unfold lstrip at 2. rewrite (drop_while_all _ _ Hx). reflexivity.
    + unfold lstrip at 1. cbn [drop_while]. rewrite Ha. exact IH.
  - rewrite rstrip_cons by assumption.
    unfold lstrip. cbn [drop_while]. rewrite Ha.
    rewrite rstrip_cons by assumption. reflexivity.
Qed.

Lemma strip_lstrip x : strip (lstrip x) = strip x.
Proof. unfold strip, lstrip. rewrite drop_while_twice. reflexivity. Qed.

Lemma strip_rstrip x : strip (rstrip x) = strip x.
Proof. unfold strip. rewrite lstrip_rstrip. apply rstrip_twice. Qed.

Lemma split_once_first sep x y :
  has_char sep x = false -> split_once sep (x ++ sep :: y) = (x, y).
Proof.
  unfold split_once. intros Hx. induction x as [|a x IH].
  - simpl. rewrite N.eqb_refl. reflexivity.
  - cbn [has_char existsb] in Hx. apply orb_false_iff in Hx as [Ha Hx].
    specialize (IH Hx). cbn [app take_while].
    rewrite (N.eqb_sym a sep), Ha. cbn [negb length drop].
    injection IH as IH1 IH2. rewrite IH1 in IH2 |- *. f_equal. exact IH2.
Qed.

(** The field of the line that states a key and a value. *)
Lemma field_of_field_line kv :
  has_char 58 kv.1 = false ->
  field_of_line (strip (field_line kv)) = Some (strip kv.1, strip kv.2).
Proof.
  intros Hk. unfold field_line.
  change (lit ": " ++ kv.2) with (58 :: 32 :: kv.2).
  rewrite strip_around by reflexivity.
  assert (Hl : has_char 58 (lstrip kv.1) = false).
  { unfold lstrip. rewrite has_char_drop_while by reflexivity. exact Hk. }
  unfold field_of_line. rewrite has_char_app, Hl.
  cbn [has_char existsb orb]. change (58 =? 58) with true. cbn [orb].
  rewrite (split_once_first 58 _ _ Hl). cbn [fst snd].
  rewrite strip_lstrip, strip_rstrip. reflexivity.
Qed.

End trimming_around.

Section log_round_trip.
Import Pres.

Lemma record_of_field_lines kvs record :
  Forall (fun kv => has_char 58 kv.1 = false) kvs ->
  fold_left add_field (List.map strip (List.map field_line kvs)) record
  = fold_left (fun m kv => <[kv.1 := kv.2]> m)
      (List.map (fun kv => (strip kv.1, strip kv.2)) kvs) record.
Proof.
  intros H. revert record. induction H as [|kv kvs Hkv _ IH]; intros record;
    [reflexivity|].
  cbn [List.map fold_left]. unfold add_field at 2.
  rewrite field_of_field_line by assumption. apply IH.
Qed.

Lemma no_line_end_app x y :
  no_line_end x = true -> no_line_end y = true -> no_line_end (x ++ y) = true.
Proof.
  unfold no_line_end. rewrite !has_char_app.
  destruct (has_char 10 x), (has_char 13 x), (has_char 10 y),
    (has_char 13 y); simpl; congruence.
Qed.

End log_round_trip.

(** X9.  A log written from a list of fields is parsed back into them: the
    lines [key: value] of fields whose keys hold no colon, and whose keys and
    values hold no line end, give one record, which maps each trimmed key to
    its trimmed value, the last line of a key winning. *)
Theorem log_round_trip (kvs : list (list N * list N)) :
  kvs <> [] ->
  Forall (fun kv => has_char 58 kv.1 = false
                    /\ no_line_end kv.1 = true
                    /\ no_line_end kv.2 = true) kvs ->
  Pres.parse_txt_file (Bib.join_lines (List.map field_line kvs))
  = [Bib.dict_of_items (List.map (fun kv => (strip kv.1, strip kv.2)) kvs)].
Proof.
  intros Hne Hall.
  destruct (exists_last Hne) as (block & last & ->).
  rewrite List.map_app. cbn [List.map]. unfold Bib.join_lines.
  rewrite parse_one_block.
  - f_equal. change [field_line last] with (List.map field_line [last]).
    rewrite <- (List.map_app field_line block [last]).
    unfold record_of_block, Bib.dict_of_items.
    apply record_of_field_lines.
    eapply Forall_impl; [exact Hall|]. simpl. tauto.
  - change [field_line last] with (List.map field_line [last]).
    rewrite <- (List.map_app field_line block [last]).
    apply Forall_fmap. eapply Forall_impl; [exact Hall|].
    intros kv (Hk & Hn1 & Hn2). simpl. unfold field_line. split.
    + apply no_line_end_app; [exact Hn1|].
      apply (no_line_end_app (lit ": ")); [reflexivity|exact Hn2].
    + rewrite has_char_app. change (lit ": " ++ kv.2) with (58 :: 32 :: kv.2).
      cbn [has_char existsb]. change (58 =? 58) with true.
      rewrite orb_true_r. reflexivity.
Qed.

(** An example for X9: a title stated twice, and a date. *)
Lemma log_round_trip_witness :
  Pres.parse_txt_file
    (Bib.join_lines
       [lit "Title: Draft"; lit "Dates: 2023-04-10"; lit "Title: Final"])
  = [Bib.dict_of_items
       [(lit "Title", lit "Draft"); (lit "Dates", lit "2023-04-10");
        (lit "Title", lit "Final")]].
Proof.
  apply (log_round_trip
           [(lit "Title", lit "Draft"); (lit "Dates", lit "2023-04-10");
            (lit "Title", lit "Final")]).
  - discriminate.
  - repeat constructor.
Defined.

Section table_rows.
Import Pres.

Lemma get_insert_other (e : gmap (list N) (list N)) k v key dflt :
  key <> k -> Bib.get (<[k := v]> e) key dflt = Bib.get e key dflt.
Proof.
  intros H. unfold Bib.get. rewrite lookup_insert_ne by congruence.
  reflexivity.
Qed.

Lemma get_delete_other (e : gmap (list N) (list N)) k key dflt :
  key <> k -> Bib.get (delete k e) key dflt = Bib.get e key dflt.
Proof.
  intros H. unfold Bib.get. rewrite lookup_delete_ne by congruence.
  reflexivity.
Qed.

Lemma row_key_other k key : k ∉ row_keys -> key ∈ row_keys -> key <> k.
Proof. intros Hk Hkey ->. contradiction. Qed.

End table_rows.

(** X10.  A row of the presentation table, and the count of the chart, only
    read the eight keys of the format: setting or removing any other key of a
    record changes neither. *)
Theorem other_keys_ignored (i : Z) (counts : gmap Z nat)
  (e : gmap (list N) (list N)) (k v : list N) :
  k ∉ row_keys ->
  Pres.row_html i (<[k := v]> e) = Pres.row_html i e
  /\ Pres.row_html i (delete k e) = Pres.row_html i e
  /\ Pres.count_step counts (<[k := v]> e) = Pres.count_step counts e
  /\ Pres.count_step counts (delete k e) = Pres.count_step counts e.
Proof.
  intros Hk.
  assert (Hkey : forall key, key ∈ row_keys -> key <> k)
    by (intros key; apply row_key_other, Hk).
  assert (Hin : Forall (fun key => key <> k) row_keys)
    by (apply Forall_forall; exact Hkey).
  unfold row_keys in Hin.
  repeat (apply Forall_cons in Hin; destruct Hin as [? Hin]).
  unfold Pres.row_html, Pres.count_step.
  rewrite !get_insert_other, !get_delete_other by assumption.
  repeat split; reflexivity.
Qed.

(** An example for X10: a note added to a record. *)
Lemma other_keys_ignored_witness :
  Pres.row_html 1 (<[lit "Note" := lit "draft"]> talk_2023)
  = Pres.row_html 1 talk_2023.
Proof.
  apply (other_keys_ignored 1 ∅ talk_2023 (lit "Note") (lit "draft")).
  vm_compute. intros H.
  repeat (apply elem_of_cons in H as [H|H]; [discriminate H|]).
  apply elem_of_nil in H. exact H.
Defined.

(** X11.  A [URL] field of whitespace only is read as no [URL] field: the
    row is the row of the record without the field.  And whitespace around a
    URL is not part of the link. *)
Theorem blank_url_is_no_url (i : Z) (e : gmap (list N) (list N))
  (url : list N) :
  e !! lit "URL" = Some url ->
  (strip url = [] ->
   Pres.row_html i e = Pres.row_html i (delete (lit "URL") e))
  /\ Pres.row_html i e = Pres.row_html i (<[lit "URL" := strip url]> e).
Proof.
  intros Hurl.
  assert (Hget : Bib.get e (lit "URL") [] = url)
    by (unfold Bib.get; rewrite Hurl; reflexivity).
  assert (Hdel : Bib.get (delete (lit "URL") e) (lit "URL") [] = [])
    by (unfold Bib.get; rewrite lookup_delete_eq; reflexivity).
  assert (Hins : Bib.get (<[lit "URL" := strip url]> e) (lit "URL") []
                 = strip url)
    by (unfold Bib.get; rewrite lookup_insert_eq; reflexivity).
  split.
  - intros Hblank. unfold Pres.row_html.
    rewrite Hget, Hdel, Hblank.
    rewrite !get_delete_other by discriminate. reflexivity.
  - unfold Pres.row_html.
    rewrite Hget, Hins, strip_twice.
    rewrite !get_insert_other by discriminate. reflexivity.
Qed.

(** An example for X11: a record whose URL is two spaces. *)
Lemma blank_url_is_no_url_witness :
  Pres.row_html 2 talk_2023_bis
  = Pres.row_html 2 (delete (lit "URL") talk_2023_bis).
Proof.
  apply (proj1 (blank_url_is_no_url 2 talk_2023_bis (lit "  ") eq_refl)).
  reflexivity.
Defined.

Section tallies.
Import Pres.

Lemma started_in_app y es es' :
  started_in y (es ++ es') = (started_in y es + started_in y es')%nat.
Proof. unfold started_in. rewrite filter_app, length_app. reflexivity. Qed.

Lemma started_in_perm y es es' :
  es ≡ₚ es' -> started_in y es = started_in y es'.
Proof. intros H. unfold started_in. rewrite H. reflexivity. Qed.

(** The loop never stores a count of zero. *)
Lemma count_loop_positive entries counts :
  (forall y n, counts !! y = Some n -> (1 <= n)%nat) ->
  forall y n, fold_left count_step entries counts !! y = Some n ->
              (1 <= n)%nat.
Proof.
  revert counts. induction entries as [|e entries IH]; intros counts Hpos;
    [exact Hpos|].
  cbn [fold_left]. apply IH. rewrite count_step_spec.
  destruct (start_year e) as [year|]; [|exact Hpos].
  intros y n. destruct (decide (year = y)) as [->|Hne].
  - rewrite lookup_insert_eq. intros [= <-]. lia.
  - rewrite lookup_insert_ne by assumption. apply Hpos.
Qed.

(** What the counter holds for a year: nothing, or the number of records
    that start in it. *)
Lemma count_per_year_lookup entries y :
  count_per_year entries !! y
  = match started_in y entries with
    | O => None
    | S n => Some (S n)
    end.
Proof.
  pose proof (count_loop_spec entries ∅ y) as Hn.
  rewrite lookup_empty in Hn. simpl in Hn. fold (started_in y entries) in Hn.
  fold (count_per_year entries) in Hn.
  destruct (count_per_year entries !! y) as [n|] eqn:Hy; simpl in Hn.
  - assert (1 <= n)%nat
      by (eapply (count_loop_positive entries ∅); [|exact Hy];
          intros ? ?; rewrite lookup_empty; discriminate).
    rewrite <- Hn. destruct n; [lia|reflexivity].
  - rewrite <- Hn. reflexivity.
Qed.

End tallies.

(** X12.  The counter of [count_per_year] holds a year exactly when a record
    starts in it, with the number of these records, never zero.  The counts
    do not depend on the order of the records, and the counts of two logs
    add up to the counts of the two put together. *)
Theorem counts_are_tallies (entries entries' : list (gmap (list N) (list N)))
  (y : Z) :
  Pres.count_per_year entries !! y
  = match started_in y entries with
    | O => None
    | S n => Some (S n)
    end
  /\ (entries ≡ₚ entries' ->
      Pres.count_per_year entries = Pres.count_per_year entries')
  /\ default O (Pres.count_per_year (entries ++ entries') !! y)
     = (default O (Pres.count_per_year entries !! y)
        + default O (Pres.count_per_year entries' !! y))%nat.
Proof.
  split; [apply count_per_year_lookup|]. split.
  - intros Hperm. apply map_eq. intros z.
    rewrite !count_per_year_lookup, (started_in_perm z _ _ Hperm).
    reflexivity.
  - rewrite !count_per_year_lookup, started_in_app.
    destruct (started_in y entries), (started_in y entries'); simpl; lia.
Qed.

(** An example for X12: two logs of the same records in another order. *)
Lemma counts_are_tallies_witness :
  Pres.count_per_year [talk_2023; talk_undated; talk_2021; talk_2023_bis]
  = Pres.count_per_year [talk_2021; talk_2023_bis; talk_2023; talk_undated].
Proof.
  apply (proj1 (proj2 (counts_are_tallies
                         [talk_2023; talk_undated; talk_2021; talk_2023_bis]
                         [talk_2021; talk_2023_bis; talk_2023; talk_undated]
                         0%Z))).
  apply (Permutation_app_comm [talk_2023; talk_undated]
           [talk_2021; talk_2023_bis]).
Defined.

Section one_accent.
Import Bib.

Lemma str_eqb_eq x y : str_eqb x y = true -> x = y.
Proof.
  revert y. induction x as [|a x IH]; intros [|b y]; simpl;
    try discriminate; [reflexivity|].
  intros H. apply andb_true_iff in H as [Hab H].
  apply N.eqb_eq in Hab. subst b. f_equal. apply IH, H.
Qed.

Lemma startswith_self k y : startswith k (k ++ y) = true.
Proof.
  induction k as [|a k IH]; [reflexivity|].
  simpl. rewrite N.eqb_refl. exact IH.
Qed.

Lemma startswith_refl k : startswith k k = true.
Proof.
  induction k as [|a k IH]; [reflexivity|].
  simpl. rewrite N.eqb_refl. exact IH.
Qed.

Lemma startswith_app_short p k y :
  (length p <= length k)%nat -> startswith p (k ++ y) = startswith p k.
Proof.
  revert k. induction p as [|a p IH]; intros k Hlen; [reflexivity|].
  destruct k as [|b k]; [simpl in Hlen; lia|].
  simpl. rewrite IH by (simpl in Hlen; lia). reflexivity.
Qed.

(** The scan passes over a text without the first character of [old]. *)
Lemma replace_from_walk h o new x t :
  has_char h x = false ->
  replace_from (h :: o) new O (x ++ t) = x ++ replace_from (h :: o) new O t.
Proof.
  induction x as [|c x IH]; [reflexivity|].
  cbn [has_char existsb]. intros H. apply orb_false_iff in H as [Hc Hx].
  cbn [app replace_from startswith]. rewrite Hc. cbn [andb].
  rewrite (IH Hx). reflexivity.
Qed.

Lemma replace_from_skip old new p t :
  replace_from old new (length p) (p ++ t) = replace_from old new O t.
Proof. induction p as [|c p IH]; [reflexivity|]. exact IH. Qed.

(** An occurrence of [old] between two texts without its first character is
    replaced, and nothing else. *)
Lemma replace_one h o new x y :
  has_char h x = false -> has_char h y = false ->
  replace (h :: o) new (x ++ (h :: o) ++ y) = x ++ new ++ y.
Proof.
  intros Hx Hy. unfold replace. rewrite replace_from_walk by assumption.
  f_equal. cbn [app replace_from].
  change (h :: o ++ y) with ((h :: o) ++ y). rewrite startswith_self.
  cbn [length Nat.pred]. rewrite replace_from_skip. f_equal.
  apply (replace_absent h o new y Hy).
Qed.

(** A text whose only backslash starts something [old] does not start is
    left as it is. *)
Lemma replace_none h o new x t y :
  has_char h x = false -> has_char h t = false -> has_char h y = false ->
  startswith (h :: o) ((h :: t) ++ y) = false ->
  replace (h :: o) new (x ++ (h :: t) ++ y) = x ++ (h :: t) ++ y.
Proof.
  intros Hx Ht Hy Hs. unfold replace. rewrite replace_from_walk by assumption.
  f_equal. cbn [app replace_from]. cbn [app] in Hs. rewrite Hs. f_equal.
  apply (replace_absent h o new (t ++ y)).
  rewrite has_char_app, Ht, Hy. reflexivity.
Qed.

Lemma filter_absent c x :
  has_char c x = false -> List.filter (fun a => negb (a =? c)) x = x.
Proof.
  induction x as [|a x IH]; [reflexivity|].
  cbn [has_char existsb List.filter]. intros H.
  apply orb_false_iff in H as [Ha Hx].
  rewrite (N.eqb_sym a c), Ha. cbn [negb]. rewrite (IH Hx). reflexivity.
Qed.

(** What the table has to satisfy for one of its macros [k]: it is a
    backslash and two characters that are none, it stands for a text without
    backslash or brace, and no macro of the table starts it but itself. *)
Lemma accent_table_checked :
  forallb (fun kv : list N * list N =>
     match kv.1 with
     | 92 :: ok =>
         negb (has_char 92 ok) && negb (has_char 92 kv.2)
         && negb (has_char 123 kv.2) && negb (has_char 125 kv.2)
         && forallb (fun kv' : list N * list N =>
              (length kv'.1 <=? length kv.1)%nat
              && (negb (startswith kv'.1 kv.1)
                  || (str_eqb kv'.1 kv.1 && str_eqb kv'.2 kv.2)))
              LATEX_ACCENTS
     | _ => false
     end) LATEX_ACCENTS = true.
Proof. vm_compute. reflexivity. Qed.

Lemma accents_one (table : list (list N * list N)) x ok v y :
  has_char 92 x = false -> has_char 92 ok = false ->
  has_char 92 v = false -> has_char 92 y = false ->
  Forall (fun kv' => (exists o', kv'.1 = 92 :: o')
                     /\ (length kv'.1 <= length (92%N :: ok))%nat
                     /\ (startswith kv'.1 (92 :: ok) = true ->
                         kv' = (92 :: ok, v))) table ->
  (92 :: ok, v) ∈ table ->
  fold_left (fun text kv => replace kv.1 kv.2 text) table
    (x ++ (92 :: ok) ++ y)
  = x ++ v ++ y.
Proof.
  intros Hx Hok Hv Hy Htable.
  induction Htable as [|[k' v'] table ([o' Hk'] & Hlen & Hstart) Htable IH];
    intros Hin; [apply elem_of_nil in Hin; contradiction|].
  cbn [fst snd] in *. cbn [fold_left fst snd].
  destruct (startswith k' (92 :: ok)) eqn:Hs.
  - specialize (Hstart eq_refl). injection Hstart as -> ->.
    rewrite replace_one by assumption.
    apply accents_absent.
    + eapply Forall_impl; [exact Htable|]. simpl. tauto.
    + rewrite !has_char_app, Hx, Hv, Hy. reflexivity.
  - subst k'. rewrite replace_none; try assumption.
    + apply IH. apply elem_of_cons in Hin as [Hin|Hin]; [|exact Hin].
      injection Hin as <- _. rewrite startswith_refl in Hs. discriminate.
    + rewrite startswith_app_short by exact Hlen. exact Hs.
Qed.

End one_accent.

(** X15.  An accent macro of the table that stands between two texts
    without a backslash becomes its character, and the texts around it only
    lose their braces, whatever the order of the table. *)
Theorem accent_is_replaced (k v x y : list N) :
  (k, v) ∈ Bib.LATEX_ACCENTS ->
  has_char 92 x = false -> has_char 92 y = false ->
  Bib.latex_to_unicode (x ++ k ++ y)
  = Bib.latex_to_unicode x ++ v ++ Bib.latex_to_unicode y.
Proof.
  intros Hin Hx Hy.
  pose proof accent_table_checked as Hall. rewrite forallb_forall in Hall.
  pose proof (Hall (k, v) (proj1 (list_elem_of_In _ _) Hin)) as Hkv.
  cbn [fst snd] in Hkv.
  destruct k as [|h ok]; [discriminate|].
  destruct (N.eqb_spec h 92) as [->|Hne];
    [|destruct h as [|p]; [discriminate|];
      repeat (destruct p as [p|p|]; try discriminate); congruence].
  apply andb_true_iff in Hkv as [Hkv Htable].
  apply andb_true_iff in Hkv as [Hkv Hv125].
  apply andb_true_iff in Hkv as [Hkv Hv123].
  apply andb_true_iff in Hkv as [Hok Hv92].
  apply negb_true_iff in Hok, Hv92, Hv123, Hv125.
  rewrite forallb_forall in Htable.
  rewrite !latex_to_unicode_unfold.
  rewrite (accents_one Bib.LATEX_ACCENTS x ok v y); try assumption.
  - rewrite !(accents_absent _ _ accent_keys_backslash) by assumption.
    rewrite !List.filter_app.
    rewrite (filter_absent 123 v Hv123), (filter_absent 125 v Hv125).
    reflexivity.
  - apply Forall_forall. intros [k' v'] Hin'.
    pose proof accent_keys_backslash as Hb. rewrite Forall_forall in Hb.
    split; [apply (Hb _ Hin')|].
    specialize (Htable (k', v') (proj1 (list_elem_of_In _ _) Hin')).
    cbn [fst snd] in *.
    apply andb_true_iff in Htable as [Hlen Hst].
    split; [apply Nat.leb_le, Hlen|].
    intros Hs. rewrite Hs in Hst. cbn [negb orb] in Hst.
    apply andb_true_iff in Hst as [Hk Hv].
    apply str_eqb_eq in Hk, Hv. congruence.
Qed.

(** An example for X15: a name with an umlaut in braces. *)
Lemma accent_is_replaced_witness :
  Bib.latex_to_unicode (lit "Sch{" ++ (92 :: dq ++ lit "a") ++ lit "}fer")
  = lit "Sch" ++ [228] ++ lit "fer".
Proof.
  apply (accent_is_replaced (92 :: dq ++ lit "a") [228] (lit "Sch{")
           (lit "}fer")).
  - apply list_elem_of_here.
  - reflexivity.
  - reflexivity.
Defined.

Section defaults.
Import Bib.

Lemma contains_et_al_join (authors : list (list N)) :
  contains (lit "et al.") (join (lit ", ") authors)
  = existsb (contains (lit "et al.")) authors.
Proof.
  induction authors as [|a authors IH]; [reflexivity|].
  rewrite join_cons. destruct authors as [|b authors].
  - simpl. rewrite orb_false_r. reflexivity.
  - rewrite contains_et_al_sep, IH. reflexivity.
Qed.

Lemma pres_get_missing (e : gmap (list N) (list N)) key dflt :
  e !! key = None -> get e key dflt = dflt.
Proof. intros H. unfold get. rewrite H. reflexivity. Qed.

End defaults.

(** X16.  What an entry lacks is rendered by a fixed text: no authors, or no
    author field, by Unknown in either table; no title by No title; no year
    by the year 9999; and an entry without journal, volume and pages shows
    the year alone. *)
Theorem missing_fields_rendered (first_author_table : bool) (year : Z)
  (entry : Bib.Entry) :
  (Bib.persons entry !! lit "author" = None
   \/ Bib.persons entry !! lit "author" = Some [] ->
   Bib.authors_html first_author_table (Bib.authors_list entry)
   = lit "Unknown")
  /\ (Bib.fields entry !! lit "title" = None ->
      Bib.title_of entry = lit "No title")
  /\ (Bib.fields entry !! lit "year" = None -> Bib.year_int entry = 9999%Z)
  /\ (Bib.fields entry !! lit "journal" = None ->
      Bib.fields entry !! lit "volume" = None ->
      Bib.fields entry !! lit "pages" = None ->
      Bib.journal_info year entry = str_of_int year).
Proof.
  split; [|split; [|split]].
  - unfold Bib.authors_list, Bib.get.
    intros [-> | ->]; destruct first_author_table; reflexivity.
  - unfold Bib.title_of, Bib.get. intros ->. reflexivity.
  - unfold Bib.year_int, Bib.get. intros ->. reflexivity.
  - unfold Bib.journal_info, Bib.get. intros -> -> ->.
    change (Bib.normalize_journal (default [] None)) with (@nil N).
    cbn [default List.filter nonempty].
    rewrite str_of_int_nonempty. reflexivity.
Qed.

(** An example for X16: an entry that has nothing, in the first row. *)
Lemma missing_fields_rendered_witness :
  Bib.rows_of true [{| Bib.fields := ∅; Bib.persons := ∅ |}]
  = [Bib.join_lines
       [lit "        <tr>";
        lit "          <td>1</td>";
        lit "          <td class='authors'>Unknown</td>";
        lit "          <td><a href=" ++ dq ++ lit "#" ++ dq ++ lit " target="
        ++ dq ++ lit "_blank" ++ dq ++ lit ">No title</a></td>";
        lit "          <td>9999</td>";
        lit "        </tr>"]]
  /\ Bib.title_of {| Bib.fields := ∅; Bib.persons := ∅ |} = lit "No title".
Proof.
  split; [vm_compute; reflexivity|].
  apply (proj1 (proj2 (missing_fields_rendered true 9999
                         {| Bib.fields := ∅; Bib.persons := ∅ |}))).
  reflexivity.
Defined.

(** X17.  A record with none of the eight keys is rendered as the empty
    record: Unknown presenters, No title without a link, and empty cells. *)
Theorem record_without_keys (i : Z) (e : gmap (list N) (list N)) :
  Forall (fun key => e !! key = None) row_keys ->
  Pres.row_html i e = Pres.row_html i ∅
  /\ Pres.row_html i ∅
     = Bib.join_lines
         [lit "        <tr>";
          lit "          <td>" ++ str_of_int i ++ lit "</td>";
          lit "          <td class='authors'>Unknown</td>";
          lit "          <td>No title</td>";
          lit "          <td></td>";
          lit "          <td></td>";
          lit "          <td></td>";
          lit "          <td></td>";
          lit "          <td></td>";
          lit "        </tr>"].
Proof.
  intros Hkeys. split.
  - unfold row_keys in Hkeys.
    repeat (apply Forall_cons in Hkeys; destruct Hkeys as [? Hkeys]).
    unfold Pres.row_html.
    rewrite !(pres_get_missing e) by assumption.
    rewrite !(pres_get_missing ∅) by apply lookup_empty. reflexivity.
  - unfold Pres.row_html.
    rewrite !(pres_get_missing ∅) by apply lookup_empty.
    unfold Bib.join_lines. cbn [join strip nonempty].
    change (nonempty (strip [])) with false. cbv iota.
    rewrite <- ?app_assoc. reflexivity.
Qed.

(** An example for X17: a record with a note only. *)
Lemma record_without_keys_witness :
  Pres.row_html 3 {[ lit "Note" := lit "cancelled" ]} = Pres.row_html 3 ∅.
Proof.
  apply (record_without_keys 3 {[ lit "Note" := lit "cancelled" ]}).
  repeat constructor.
Defined.

(** X18.  In the table of the Nth-author articles the authors are shown in
    full, whatever their number, joined by commas, with no tag and nothing
    appended: the cell holds the words et al. only where a name holds
    them. *)
Theorem nth_author_cell (a : list N) (rest : list (list N)) :
  Bib.authors_html false (a :: rest) = join (lit ", ") (a :: rest)
  /\ contains (lit "et al.") (Bib.authors_html false (a :: rest))
     = existsb (contains (lit "et al.")) (a :: rest).
Proof.
  assert (H : Bib.authors_html false (a :: rest) = join (lit ", ") (a :: rest))
    by reflexivity.
  split; [exact H|]. rewrite H. apply contains_et_al_join.
Qed.
